(** * Gem-Assist: the control-center configuration, sign-in callback,
      viewer page and the chat widget, embedded and verified.

    Sources embedded here:
    - [config/env.ts] of the control center      (requireEnv, env)
    - [auth/oidc.ts] of the control center       (handleSigninCallback)
    - [gem-control-center/src/pages/SigninCallback.tsx]
    - [gem-control-center/src/pages/Viewer.tsx]  (Viewer, marketingUrl)
    - [static/ai_script.js]                      (sendMessage, appendMessage,
                                                  escapeHtml)
*)

From Stdlib Require Import NArith String Ascii List Bool Lia.
From stdpp Require Import base option list strings gmap.

Open Scope string_scope.
Open Scope list_scope.

(* ===================================================================== *)
(** ** JavaScript strings *)
(* ===================================================================== *)

(** A JavaScript string is a finite sequence of UTF-16 code units.  Code
    units are kept as [N]; no operation below does arithmetic on them. *)
Module Js.

Abbreviation str := (list N).

(** A source-code literal made of ASCII characters. *)
Definition lit (s : string) : str :=
  N_of_ascii <$> list_ascii_of_string s.

(** [new Error(message)]: only the [message] property is ever read. *)
Record Error : Type := mkError { message : str }.

(** The outcome of evaluating an expression that may throw, or of
    awaiting a promise that may reject. *)
Inductive Completion (A : Type) : Type :=
| Normal (a : A)
| Throw (e : Error).
Arguments Normal {A} a.
Arguments Throw {A} e.

#[global] Instance completion_ret : MRet Completion := fun A a => Normal a.
#[global] Instance completion_bind : MBind Completion := fun A B k c =>
  match c with
  | Normal a => k a
  | Throw e => Throw e
  end.

(** Code that reads and writes a state [S] and may throw. *)
Definition Eff (S A : Type) : Type := S -> S * Completion A.

#[global] Instance eff_ret S : MRet (Eff S) := fun A a s => (s, Normal a).
#[global] Instance eff_bind S : MBind (Eff S) := fun A B k c s =>
  match c s with
  | (s', Normal a) => k a s'
  | (s', Throw e) => (s', Throw e)
  end.

Definition modify {S} (f : S -> S) : Eff S unit := fun s => (f s, Normal tt).

Definition lift {S A} (c : Completion A) : Eff S A := fun s => (s, c).

(** [try { body } catch (e) { handler }] *)
Definition try_catch {S A} (body : Eff S A) (handler : Error -> Eff S A)
  : Eff S A :=
  fun s =>
    match body s with
    | (s', Throw e) => handler e s'
    | (s', Normal a) => (s', Normal a)
    end.

(** [try { body } finally { fin }]: [fin] always runs; its own throw,
    if any, replaces the outcome of [body]. *)
Definition try_finally {S A} (body : Eff S A) (fin : Eff S unit) : Eff S A :=
  fun s =>
    match body s with
    | (s', r) =>
        match fin s' with
        | (s'', Normal _) => (s'', r)
        | (s'', Throw e) => (s'', Throw e)
        end
    end.

(** ToBoolean on a string: only the empty string is falsy. *)
Definition truthy_str (s : str) : bool :=
  match s with
  | [] => false
  | _ :: _ => true
  end.

(** ToBoolean on a value of type [string | undefined]. *)
Definition truthy (v : option str) : bool :=
  match v with
  | None => false
  | Some s => truthy_str s
  end.

(** [a ?? b] on [string | undefined]: only [undefined] selects [b]. *)
Definition nullish (a : option str) (b : str) : str :=
  match a with
  | Some v => v
  | None => b
  end.

(** [s.replace(/c/g, by)] for a pattern that is one literal character:
    every occurrence is replaced, left to right. *)
Fixpoint replace_all (c : N) (by_ : str) (s : str) : str :=
  match s with
  | [] => []
  | x :: rest => (if N.eqb x c then by_ else [x]) ++ replace_all c by_ rest
  end.

(** [s.startsWith(p)] *)
Fixpoint startsWith (s p : str) {struct p} : bool :=
  match p, s with
  | [], _ => true
  | _ :: _, [] => false
  | a :: p', b :: s' => N.eqb a b && startsWith s' p'
  end.

(** The code units [String.prototype.trim] removes: WhiteSpace and
    LineTerminator of ECMA-262. *)
Definition is_white_space (c : N) : bool :=
  (N.leb 9 c && N.leb c 13)              (* TAB LF VT FF CR *)
  || N.eqb c 32 || N.eqb c 160           (* SP, NBSP *)
  || N.eqb c 5760                        (* U+1680 *)
  || (N.leb 8192 c && N.leb c 8202)      (* U+2000 .. U+200A *)
  || N.eqb c 8232 || N.eqb c 8233        (* LS, PS *)
  || N.eqb c 8239 || N.eqb c 8287        (* U+202F, U+205F *)
  || N.eqb c 12288 || N.eqb c 65279.     (* U+3000, U+FEFF *)

Fixpoint trimStart (s : str) : str :=
  match s with
  | [] => []
  | c :: rest => if is_white_space c then trimStart rest else s
  end.

Definition trimEnd (s : str) : str := rev (trimStart (rev s)).

Definition trim (s : str) : str := trimEnd (trimStart s).

(** The values [JSON.parse] can produce, and [undefined].  A number
    keeps the bits of its double; nothing here computes with it. *)
#[local] Set Warnings "-register-all".
Inductive Value : Type :=
| VUndefined
| VNull
| VBool (b : bool)
| VNumber (bits : N)
| VString (s : str)
| VArray (items : list Value)
| VObject (props : list (str * Value)).

(** The engine's TypeError.  Its message text is engine-defined and is
    never read by the code below; it is left empty. *)
Definition type_error : Error := mkError [].

Fixpoint own_property (props : list (str * Value)) (name : str) : Value :=
  match props with
  | [] => VUndefined
  | (k, v) :: rest => if bool_decide (k = name) then v else own_property rest name
  end.

(** [v.name] for a property name that no prototype defines and that is
    neither an index nor [length]: reading it off [null] or
    [undefined] throws, an object gives its own property, every other
    value gives [undefined]. *)
Definition get_property (v : Value) (name : str) : Completion Value :=
  match v with
  | VUndefined | VNull => Throw type_error
  | VObject props => Normal (own_property props name)
  | VBool _ | VNumber _ | VString _ | VArray _ => Normal VUndefined
  end.

End Js.

(* ===================================================================== *)
(** ** config/env.ts *)
(* ===================================================================== *)

Module Config.
Import Js.

Record AppEnv : Type := mkAppEnv {
  itwinClientId : str;
  redirectUri : str;
  postSignoutRedirectUri : str;
  scope : str;
  authority : str;
  demoITwinId : option str;
  demoIModelId : option str;
  marketingBaseUrl : str;
}.

(** [import.meta.env]: the variables that are set, by name. *)
Abbreviation MetaEnv := (gmap string str).

Definition missing (name : string) : Error :=
  mkError (lit "Missing required env var: " ++ lit name).

(** [function requireEnv(name)]:
    [if (!v) throw new Error(`Missing required env var: ${name}`)]. *)
Definition requireEnv (m : MetaEnv) (name : string) : Completion str :=
  let v := m !! name in
  if negb (truthy v) then Throw (missing name)
  else match v with
       | Some s => Normal s
       | None => Throw (missing name) (* not reached: undefined is falsy *)
       end.

(** [export const env: AppEnv = { ... }]: the property initialisers run
    top to bottom, so the first throwing [requireEnv] ends the
    construction. *)
Definition env (m : MetaEnv) : Completion AppEnv :=
  cid ← requireEnv m "VITE_ITWIN_CLIENT_ID";
  ruri ← requireEnv m "VITE_ITWIN_REDIRECT_URI";
  puri ← requireEnv m "VITE_ITWIN_POST_SIGNOUT_REDIRECT_URI";
  Normal {|
    itwinClientId := cid;
    redirectUri := ruri;
    postSignoutRedirectUri := puri;
    scope := nullish (m !! "VITE_ITWIN_SCOPE") (lit "itwin-platform");
    authority :=
      nullish (m !! "VITE_ITWIN_AUTHORITY") (lit "https://ims.bentley.com");
    demoITwinId := m !! "VITE_DEMO_ITWIN_ID";
    demoIModelId := m !! "VITE_DEMO_IMODEL_ID";
    marketingBaseUrl := nullish (m !! "VITE_MARKETING_BASE_URL") (lit "/");
  |}.

(** The required keys, in the order [env] reads them. *)
Definition required_keys : list string :=
  [ "VITE_ITWIN_CLIENT_ID";
    "VITE_ITWIN_REDIRECT_URI";
    "VITE_ITWIN_POST_SIGNOUT_REDIRECT_URI" ].

(** The required keys that [env] reads before it reads [k]. *)
Fixpoint read_before_in (ks : list string) (k : string) : list string :=
  match ks with
  | [] => []
  | k' :: rest => if String.eqb k' k then [] else k' :: read_before_in rest k
  end.

Definition read_before (k : string) : list string :=
  read_before_in required_keys k.

(** A variable that is set to a non-empty value. *)
Definition nonempty (m : MetaEnv) (k : string) : Prop :=
  exists v, m !! k = Some v /\ v <> [].

(** Sample environments used to exercise the construction. *)
Definition sample_full : MetaEnv :=
  <["VITE_ITWIN_CLIENT_ID" := lit "spa-abc"]>
  (<["VITE_ITWIN_REDIRECT_URI" := lit "http://localhost:5173/signin-callback"]>
  (<["VITE_ITWIN_POST_SIGNOUT_REDIRECT_URI" := lit "http://localhost:5173/"]>
  (<["VITE_ITWIN_AUTHORITY" := lit "https://qa-ims.bentley.com"]> ∅))).

Definition sample_full_env : AppEnv := {|
  itwinClientId := lit "spa-abc";
  redirectUri := lit "http://localhost:5173/signin-callback";
  postSignoutRedirectUri := lit "http://localhost:5173/";
  scope := lit "itwin-platform";
  authority := lit "https://qa-ims.bentley.com";
  demoITwinId := None;
  demoIModelId := None;
  marketingBaseUrl := lit "/";
|}.

(** Every required variable is set, the client id to the empty string. *)
Definition sample_empty_client_id : MetaEnv :=
  <["VITE_ITWIN_CLIENT_ID" := []]> sample_full.

(** Both the client id and the redirect URI are set to the empty
    string. *)
Definition sample_both_empty : MetaEnv :=
  <["VITE_ITWIN_REDIRECT_URI" := []]> sample_empty_client_id.

(** Neither the client id nor the redirect URI is set. *)
Definition sample_two_absent : MetaEnv :=
  delete "VITE_ITWIN_CLIENT_ID" (delete "VITE_ITWIN_REDIRECT_URI" sample_full).

(** The post-signout URI is set to the empty string, the rest is fine. *)
Definition sample_empty_post_signout : MetaEnv :=
  <["VITE_ITWIN_POST_SIGNOUT_REDIRECT_URI" := []]> sample_full.

(** Only the redirect URI is absent. *)
Definition sample_no_redirect : MetaEnv :=
  delete "VITE_ITWIN_REDIRECT_URI" sample_full.

End Config.

(* ===================================================================== *)
(** ** auth/oidc.ts and pages/SigninCallback.tsx *)
(* ===================================================================== *)

Module Signin.
Import Js.

(** [export async function handleSigninCallback()]: awaits the
    client's own [handleSigninCallback] and passes its outcome on.  The
    client is the external OIDC library; [client] is the outcome of its
    promise. *)
Definition handleSigninCallback (client : Completion unit) : Completion unit :=
  client ≫= λ _, mret tt.

(** What the page owns: its [msg] state and, through [useNavigate], the
    router's list of navigations (oldest first). *)
Record Page : Type := mkPage {
  msg : str;
  navigated : list str;
}.

(** [useState("Signing you in…")]; the last character is U+2026. *)
Definition initial_msg : str := lit "Signing you in" ++ [8230%N].

Definition mount : Page := {| msg := initial_msg; navigated := [] |}.

Definition nav (to : str) : Eff Page unit :=
  modify (fun p => {| msg := msg p; navigated := navigated p ++ [to] |}).

Definition setMsg (text : str) : Eff Page unit :=
  modify (fun p => {| msg := text; navigated := navigated p |}).

(** The async body run by [useEffect] once the page is mounted. *)
Definition effect (client : Completion unit) : Eff Page unit :=
  try_catch
    (lift (handleSigninCallback client);;
     nav (lit "/app/viewer"))
    (fun e => setMsg (lit "Sign-in failed: " ++ message e)).

(** [return <div>{msg}</div>]: the text on screen. *)
Definition render (p : Page) : str := msg p.

(** The page after its effect has settled. *)
Definition settled (client : Completion unit) : Page :=
  fst (effect client mount).

(** Every text the page shows during its life: the first render, and
    the render after the effect has settled. *)
Definition SigninCallback (client : Completion unit) : list str :=
  [render mount; render (settled client)].

End Signin.

(* ===================================================================== *)
(** ** pages/Viewer.tsx *)
(* ===================================================================== *)

Module Viewer.
Import Js.

Record Hotspot : Type := mkHotspot {
  id : str;
  title : str;
  description : str;
  ctaLabel : str;
  ctaPath : str;
}.

Definition DEFAULT_HOTSPOTS : list Hotspot :=
  [ {| id := lit "reception";
       title := lit "Reception";
       description :=
         lit "Book a demo or request enterprise security services.";
       ctaLabel := lit "Contact Us";
       ctaPath := lit "/contact-us" |};
    {| id := lit "showroom";
       title := lit "Showroom";
       description :=
         lit "Explore services and offerings tied to model locations.";
       ctaLabel := lit "View Services";
       ctaPath := lit "/services" |} ].

Definition slash : N := 47.

(** [s.replace(/\/+$/, "")]: the regular expression is tried at each
    start position from the left; at a position it matches when a run of
    one or more slashes reaches the end of the string.  The first match
    is replaced by the empty string. *)
Fixpoint strip_slashes_at_end (s : str) : str :=
  match s with
  | [] => []
  | c :: rest =>
      if N.eqb c slash && forallb (N.eqb slash) rest then []
      else c :: strip_slashes_at_end rest
  end.

(** The function [useMemo] returns. *)
Definition marketingUrl (cfg : Config.AppEnv) (path : str) : str :=
  let base := strip_slashes_at_end (Config.marketingBaseUrl cfg) in
  base ++ (if startsWith path (lit "/") then path else lit "/" ++ path).

(** [useState<Hotspot | null>(DEFAULT_HOTSPOTS[0])] *)
Definition State : Type := option Hotspot.

Definition initial : State := DEFAULT_HOTSPOTS !! 0%nat.

(** A click on the [i]-th hotspot button runs [setSelected(h)] for the
    [i]-th element; there is no button past the end of the list. *)
Definition click (i : nat) (selected : State) : State :=
  match DEFAULT_HOTSPOTS !! i with
  | Some h => Some h
  | None => selected
  end.

(** The hotspot buttons: label, and whether drawn as selected
    ([selected?.id === h.id]). *)
Definition buttons (selected : State) : list (str * bool) :=
  (fun h =>
     (title h,
      match selected with
      | Some sel => bool_decide (id sel = id h)
      | None => false
      end)) <$> DEFAULT_HOTSPOTS.

(** The details panel. *)
Inductive Details : Type :=
| Placeholder (text : str)
| Card (shown_title shown_description href link_label : str).

Definition details (cfg : Config.AppEnv) (selected : State) : Details :=
  match selected with
  | None => Placeholder (lit "Select a hotspot.")
  | Some h =>
      Card (title h) (description h) (marketingUrl cfg (ctaPath h)) (ctaLabel h)
  end.

(** "Trailing slashes stripped", in the spec's words: [r] is [s] with
    its slashes at the end removed when [s] is [r] followed by slashes
    only and [r] does not end in a slash. *)
Definition trailing_slashes_stripped (s r : str) : Prop :=
  (exists n, s = r ++ replicate n slash) /\ last r <> Some slash.

End Viewer.

(* ===================================================================== *)
(** ** static/ai_script.js *)
(* ===================================================================== *)

Module Chat.
Import Js.

Definition ampersand : N := 38.
Definition less_than : N := 60.
Definition greater_than : N := 62.

(** [escapeHtml(str)] on a string. *)
Definition escape (s : str) : str :=
  replace_all greater_than (lit "&gt;")
    (replace_all less_than (lit "&lt;")
       (replace_all ampersand (lit "&amp;") s)).

(** [function escapeHtml(str)].  Only a string has a [replace] method
    that can be called; on any other value the call throws a
    TypeError. *)
Definition escapeHtml (v : Value) : Completion str :=
  match v with
  | VString s => Normal (escape s)
  | _ => Throw type_error
  end.

(** The [<p>] element a message is shown in. *)
Record Element : Type := mkElement {
  classList : list str;
  innerHTML : str;
}.

Record InputEl : Type := mkInput {
  value : str;
  focused : bool;
}.

(** The chat box.  [at_bottom] records that [scrollTop] was last set to
    [scrollHeight] and nothing was added since. *)
Record Box : Type := mkBox {
  children : list Element;
  at_bottom : bool;
}.

Record Button : Type := mkButton {
  disabled : bool;
  textContent : str;
}.

(** A call of [fetch(url, {method, headers, body})].  [body] holds the
    value handed to [JSON.stringify]. *)
Record Request : Type := mkRequest {
  url : str;
  method : str;
  headers : list (str * str);
  body : Value;
}.

(** A response: its status and what [response.json()] settles to. *)
Record Response : Type := mkResponse {
  status : N;
  json : Completion Value;
}.

(** The three elements looked up when the script loads (each may be
    [null]), and the requests sent so far (oldest first). *)
Record World : Type := mkWorld {
  inputEl : option InputEl;
  chatboxEl : option Box;
  sendBtn : option Button;
  sent : list Request;
}.

Definition with_input (f : InputEl -> InputEl) (w : World) : World :=
  {| inputEl := f <$> inputEl w; chatboxEl := chatboxEl w;
     sendBtn := sendBtn w; sent := sent w |}.

Definition with_box (f : Box -> Box) (w : World) : World :=
  {| inputEl := inputEl w; chatboxEl := f <$> chatboxEl w;
     sendBtn := sendBtn w; sent := sent w |}.

Definition with_button (f : Button -> Button) (w : World) : World :=
  {| inputEl := inputEl w; chatboxEl := chatboxEl w;
     sendBtn := f <$> sendBtn w; sent := sent w |}.

Definition set_value (v : str) (i : InputEl) : InputEl :=
  {| value := v; focused := focused i |}.

Definition focus (i : InputEl) : InputEl :=
  {| value := value i; focused := true |}.

Definition set_disabled (d : bool) (b : Button) : Button :=
  {| disabled := d; textContent := textContent b |}.

Definition set_textContent (t : str) (b : Button) : Button :=
  {| disabled := disabled b; textContent := t |}.

Definition appendChild (p : Element) (b : Box) : Box :=
  {| children := children b ++ [p]; at_bottom := false |}.

(** [chatboxEl.scrollTop = chatboxEl.scrollHeight] *)
Definition scroll_to_bottom (b : Box) : Box :=
  {| children := children b; at_bottom := true |}.

(** The code units a class token must not contain (ASCII whitespace:
    TAB, LF, FF, CR, SPACE). *)
Definition is_ascii_whitespace (c : N) : bool :=
  N.eqb c 9 || N.eqb c 10 || N.eqb c 12 || N.eqb c 13 || N.eqb c 32.

(** The DOMException of [classList.add].  As for [type_error], its
    message is the engine's, is never read, and is left empty. *)
Definition token_error : Error := mkError [].

(** [p.classList.add("message", type)] on an element that has no class
    yet, giving its class list: a token that is empty or holds ASCII
    whitespace makes the call throw and adds nothing; a token that is
    already in the list is not added again. *)
Definition classList_add (type : str) : Completion (list str) :=
  if negb (truthy_str type) || existsb is_ascii_whitespace type then
    Throw token_error
  else if bool_decide (type = lit "message") then Normal [lit "message"]
  else Normal [lit "message"; type].

(** [function appendMessage(sender, text, type)].  The element is
    attached only after [classList.add] and [escapeHtml] have
    returned. *)
Definition appendMessage (sender : str) (text : Value) (type : str)
  : Eff World unit :=
  fun w =>
    match chatboxEl w with
    | None => (w, Normal tt)
    | Some _ =>
        (classes ← lift (classList_add type);
         escaped ← lift (escapeHtml text);
         let p := {| classList := classes;
                     innerHTML := lit "<b>" ++ sender ++ lit ":</b> " ++ escaped |} in
         modify (with_box (appendChild p));;
         modify (with_box scroll_to_bottom)) w
    end.

(** The network, as seen from the script: what the promise of [fetch]
    settles to for a request. *)
Definition Network : Type := Request -> Completion Response.

Definition fetch (net : Network) (req : Request) : Eff World Response :=
  fun w =>
    ({| inputEl := inputEl w; chatboxEl := chatboxEl w;
        sendBtn := sendBtn w; sent := sent w ++ [req] |},
     net req).

Definition chat_request (text : str) : Request :=
  {| url := lit "/chat";
     method := lit "POST";
     headers := [(lit "Content-Type", lit "application/json")];
     body := VObject [(lit "message", VString text)] |}.

Definition fallback : str :=
  lit "Sorry, something went wrong while contacting the assistant.".

(** [async function sendMessage()], run to completion against [net]: the
    part before the first [await], then the continuations, with no other
    event handler of the page running in between. *)
Definition sendMessage (net : Network) : Eff World unit :=
  fun w =>
    match inputEl w, chatboxEl w, sendBtn w with
    | Some input, Some _, Some _ =>
        let text := trim (value input) in
        if negb (truthy_str text) then (w, Normal tt)
        else
          (appendMessage (lit "You") (VString text) (lit "user");;
           modify (with_input (set_value []));;
           modify (with_input focus);;
           modify (with_button (set_disabled true));;
           modify (with_button (set_textContent (lit "Sending...")));;
           try_finally
             (try_catch
                (response ← fetch net (chat_request text);
                 data ← lift (json response);
                 reply ← lift (get_property data (lit "reply"));
                 appendMessage (lit "AI") reply (lit "ai"))
                (fun err =>
                   appendMessage (lit "AI") (VString fallback) (lit "ai")))
             (modify (with_button (set_disabled false));;
              modify (with_button (set_textContent (lit "Send")));;
              modify (with_box scroll_to_bottom))) w
    | _, _, _ => (w, Normal tt)
    end.

(** *** The browser's reading of the markup *)

(** What the browser shows for the markup [appendMessage] writes to
    [innerHTML], as long as the text holds no CR and no NUL (the parser
    turns the first into LF and drops the second): a tag, from [<] to
    the next [>], shows nothing ... *)
Fixpoint strip_tags (in_tag : bool) (html : str) : str :=
  match html with
  | [] => []
  | c :: rest =>
      if in_tag then strip_tags (negb (N.eqb c greater_than)) rest
      else if N.eqb c less_than then strip_tags true rest
      else c :: strip_tags false rest
  end.

(** ... and the character references [&amp;], [&lt;] and [&gt;] show
    the character they name.  [skip] counts the code units of a
    reference still to be passed over. *)
Fixpoint decode_refs (skip : nat) (s : str) : str :=
  match s with
  | [] => []
  | c :: rest =>
      match skip with
      | S k => decode_refs k rest
      | O =>
          if N.eqb c ampersand then
            if startsWith rest (lit "amp;") then ampersand :: decode_refs 4 rest
            else if startsWith rest (lit "lt;") then less_than :: decode_refs 3 rest
            else if startsWith rest (lit "gt;") then greater_than :: decode_refs 3 rest
            else c :: decode_refs 0 rest
          else c :: decode_refs 0 rest
      end
  end.

Definition shown_text (e : Element) : str :=
  decode_refs 0 (strip_tags false (innerHTML e)).

(** *** The escaping, in the spec's words *)

(** Each [&], [<] and [>] is replaced by its reference; every other
    code unit stays. *)
Definition escape_unit (c : N) : str :=
  if N.eqb c ampersand then lit "&amp;"
  else if N.eqb c less_than then lit "&lt;"
  else if N.eqb c greater_than then lit "&gt;"
  else [c].

Definition escape_spec (s : str) : str := flat_map escape_unit s.

(** *** What one send amounts to *)

(** The paragraph [appendMessage] builds for a string. *)
Definition paragraph (sender text type : str) : Element :=
  {| classList := [lit "message"; type];
     innerHTML := lit "<b>" ++ sender ++ lit ":</b> " ++ escape text |}.

(** The assistant's words for a message: the [reply] string of the parsed
    response when there is one, the fixed apology in every other case. *)
Definition assistant_text (net : Network) (text : str) : str :=
  match net (chat_request text) with
  | Normal response =>
      match json response with
      | Normal data =>
          match get_property data (lit "reply") with
          | Normal (VString reply) => reply
          | _ => fallback
          end
      | Throw _ => fallback
      end
  | Throw _ => fallback
  end.

(** *** Sample pages and networks *)

Definition sample_world (typed : str) : World :=
  {| inputEl := Some {| value := typed; focused := true |};
     chatboxEl := Some {| children := []; at_bottom := true |};
     sendBtn := Some {| disabled := false; textContent := lit "Send" |};
     sent := [] |}.

Definition net_reply_hi : Network :=
  fun _ => Normal {| status := 200;
                     json := Normal (VObject [(lit "reply", VString (lit "hi"))]) |}.

Definition net_down : Network :=
  fun _ => Throw (mkError (lit "Failed to fetch")).

End Chat.

(* ===================================================================== *)
(** ** ui/AppShell.tsx: the navigation links *)
(* ===================================================================== *)

Module Shell.
Import Js.

(** The props of [NavItem]. *)
Record NavItemProps : Type := mkNavItem {
  to : str;
  label : str;
}.

(** The four [<NavItem>] elements of [AppShell], top to bottom. *)
Definition NAV_ITEMS : list NavItemProps :=
  [ {| to := lit "/app"; label := lit "Dashboard" |};
    {| to := lit "/app/viewer"; label := lit "Viewer" |};
    {| to := lit "/app/activity"; label := lit "Activity" |};
    {| to := lit "/app/settings"; label := lit "Settings" |} ].

(** [const active = loc.pathname.startsWith(to)] *)
Definition active (pathname : str) (item : NavItemProps) : bool :=
  startsWith pathname (to item).

(** The [background] of the link's style. *)
Definition background (pathname : str) (item : NavItemProps) : str :=
  if active pathname item then lit "rgba(255,255,255,0.08)"
  else lit "transparent".

(** The [<nav>] block: each link's label with its background. *)
Definition nav (pathname : str) : list (str * str) :=
  (fun item => (label item, background pathname item)) <$> NAV_ITEMS.

End Shell.

(* ===================================================================== *)
(** ** auth/oidc.ts: the client's options *)
(* ===================================================================== *)

Module Oidc.
Import Js.

(** The object handed to [new BrowserAuthorizationClient(...)]. *)
Record ClientOptions : Type := mkClientOptions {
  clientId : str;
  redirectUri : str;
  postSignoutRedirectUri : str;
  scope : str;
  authority : str;
  responseType : str;
}.

Definition authClientOptions (cfg : Config.AppEnv) : ClientOptions :=
  {| clientId := Config.itwinClientId cfg;
     redirectUri := Config.redirectUri cfg;
     postSignoutRedirectUri := Config.postSignoutRedirectUri cfg;
     scope := Config.scope cfg;
     authority := Config.authority cfg;
     responseType := lit "code" |}.

End Oidc.

(* ===================================================================== *)
(** ** Using the pages: sequences of user actions *)
(* ===================================================================== *)

Module Use.
Import Js.

(** The names [env] reads off [import.meta.env]. *)
Definition env_keys : list string :=
  Config.required_keys
  ++ [ "VITE_ITWIN_SCOPE"; "VITE_ITWIN_AUTHORITY"; "VITE_DEMO_ITWIN_ID";
       "VITE_DEMO_IMODEL_ID"; "VITE_MARKETING_BASE_URL" ].

(** Clicks on hotspot buttons of the viewer, one after the other. *)
Definition clicks (indices : list nat) (selected : Viewer.State) : Viewer.State :=
  foldl (fun s i => Viewer.click i s) selected indices.

(** The user replaces the text in the chat's input field ... *)
Definition type_text (text : str) (w : Chat.World) : Chat.World :=
  Chat.with_input (Chat.set_value text) w.

(** ... and sends it; the send runs to completion before anything else
    happens on the page. *)
Definition type_and_send (net : Chat.Network) (text : str) (w : Chat.World)
  : Chat.World :=
  (Chat.sendMessage net (type_text text w)).1.

(** A conversation in which each text is typed and sent only after the
    send before it has completed.  (Sends that overlap, as when Enter is
    pressed again while a request is pending, are not of this form.) *)
Definition session (net : Chat.Network) (texts : list str) (w : Chat.World)
  : Chat.World :=
  foldl (fun w text => type_and_send net text w) w texts.

(** The paragraphs one typed text adds to the chat box: none for a
    blank text, the user's and the assistant's otherwise. *)
Definition exchange (net : Chat.Network) (typed : str) : list Chat.Element :=
  if truthy_str (trim typed) then
    [ Chat.paragraph (lit "You") (trim typed) (lit "user");
      Chat.paragraph (lit "AI") (Chat.assistant_text net (trim typed)) (lit "ai") ]
  else [].

(** The code units [escapeHtml] rewrites. *)
Definition special (c : N) : bool :=
  N.eqb c Chat.ampersand || N.eqb c Chat.less_than || N.eqb c Chat.greater_than.

(** The requests one typed text causes. *)
Definition exchange_requests (typed : str) : list Chat.Request :=
  if truthy_str (trim typed) then [Chat.chat_request (trim typed)] else [].

End Use.

(* ===================================================================== *)
(** ** The n8n client (class [N8NClient] and its instance [n8n]) *)
(* ===================================================================== *)

Module N8N.
Import Js.

(** [s.replace(/\/$/, "")]: the pattern matches one slash that is the
    last code unit of the string, and nothing else. *)
Fixpoint strip_final_slash (s : str) : str :=
  match s with
  | [] => []
  | c :: rest =>
      match rest with
      | [] => if N.eqb c Viewer.slash then [] else [c]
      | _ :: _ => c :: strip_final_slash rest
      end
  end.

(** The fields of an [N8NClient]; [timeout] is that of its axios
    instance, which is created with the same [baseURL]. *)
Record Client : Type := mkClient {
  baseURL : str;
  timeout : N;
}.

(** [constructor(baseURL)] *)
Definition N8NClient (base : str) : Client :=
  {| baseURL := strip_final_slash base; timeout := 30000 |}.

(** A call of [this.client.post(path, data)]. *)
Record Post : Type := mkPost {
  client : Client;
  path : str;
  data : Value;
}.

(** What the promise of a post settles to: [response.data], or a
    rejection. *)
Definition Http : Type := Post -> Completion Value.

Definition post (http : Http) (p : Post) : Eff (list Post) Value :=
  fun posts => (posts ++ [p], http p).

(** A parameter with a default value: the default is taken when the
    argument is left out ([None]) and when [undefined] is passed. *)
Definition or_default (arg : option Value) (default_ : Value) : Value :=
  match arg with
  | None | Some VUndefined => default_
  | Some v => v
  end.

(** [async triggerWorkflow(workflowId, data = {})] *)
Definition triggerWorkflow (http : Http) (this : Client)
    (workflowId : str) (data_ : option Value) : Eff (list Post) Value :=
  try_catch
    (response_data ← post http {| client := this;
                                  path := lit "/webhook/" ++ workflowId;
                                  data := or_default data_ (VObject []) |};
     mret (VObject [(lit "success", VBool true); (lit "data", response_data)]))
    (fun error =>
       mret (VObject [(lit "success", VBool false);
                      (lit "error", VString (message error))])).

(** [async generateContent(topic, platforms = ["twitter"])]; [now] is
    what [new Date().toISOString()] gives at the time of the call. *)
Definition generateContent (http : Http) (this : Client) (now : str)
    (topic : Value) (platforms : option Value) : Eff (list Post) Value :=
  triggerWorkflow http this (lit "content-generator")
    (Some (VObject
       [ (lit "topic", topic);
         (lit "platforms", or_default platforms (VArray [VString (lit "twitter")]));
         (lit "timestamp", VString now);
         (lit "source", VString (lit "replit")) ])).

(** [async processRSS(feedUrl, action = "summarize")] *)
Definition processRSS (http : Http) (this : Client)
    (feedUrl : Value) (action : option Value) : Eff (list Post) Value :=
  triggerWorkflow http this (lit "rss-processor")
    (Some (VObject
       [ (lit "feed_url", feedUrl);
         (lit "action", or_default action (VString (lit "summarize")));
         (lit "output_format", VString (lit "social_media"));
         (lit "source", VString (lit "replit")) ])).

(** [async dataPipeline(source, transformations = ["clean"])] *)
Definition dataPipeline (http : Http) (this : Client)
    (source : Value) (transformations : option Value) : Eff (list Post) Value :=
  triggerWorkflow http this (lit "data-pipeline")
    (Some (VObject
       [ (lit "pipeline", VString (lit "replit-data"));
         (lit "source", source);
         (lit "transformations",
          or_default transformations (VArray [VString (lit "clean")]));
         (lit "output", VString (lit "database")) ])).

(** [const N8N_IP = process.env.N8N_IP || "YOUR_N8N_IP_HERE"] *)
Definition N8N_IP (process_env : gmap string str) : str :=
  match process_env !! "N8N_IP" with
  | Some ip => if truthy_str ip then ip else lit "YOUR_N8N_IP_HERE"
  | None => lit "YOUR_N8N_IP_HERE"
  end.

(** [const n8n = new N8NClient(`http://${N8N_IP}:5678`)] *)
Definition n8n (process_env : gmap string str) : Client :=
  N8NClient (lit "http://" ++ N8N_IP process_env ++ lit ":5678").

(** The three helpers, by the workflow they trigger. *)
Inductive Helper : Type := GenerateContent | ProcessRSS | DataPipeline.

Definition helper_workflow (h : Helper) : str :=
  match h with
  | GenerateContent => lit "content-generator"
  | ProcessRSS => lit "rss-processor"
  | DataPipeline => lit "data-pipeline"
  end.

Definition run_helper (h : Helper) (http : Http) (this : Client) (now : str)
    (arg : Value) (optional : option Value) : Eff (list Post) Value :=
  match h with
  | GenerateContent => generateContent http this now arg optional
  | ProcessRSS => processRSS http this arg optional
  | DataPipeline => dataPipeline http this arg optional
  end.

End N8N.

(* ===================================================================== *)
(** ** The Vercel analytics loader *)
(* ===================================================================== *)

Module Analytics.
Import Js.

(** What the imported module has under the name [inject]: nothing, a
    value that is not a function, or a function ([call] is how a call
    of it ends). *)
Inductive Export : Type :=
| NotExported
| NotAFunction (v : Value)
| Function (call : Completion unit).

Record Module_ : Type := mkModule { inject : Export }.

(** An argument of a console call. *)
Inductive Arg : Type :=
| Text (s : str)
| Thrown (e : Error).

Inductive Line : Type :=
| ConsoleLog (args : list Arg)
| ConsoleWarn (args : list Arg).

(** The page, as far as the script touches it: the console, the number
    of calls of [inject], and whether [initVercelAnalytics] is
    registered for [DOMContentLoaded]. *)
Record Page : Type := mkPage {
  console : list Line;
  inject_calls : nat;
  on_dom_ready : bool;
}.

Definition print (line : Line) : Eff Page unit :=
  modify (fun p => {| console := console p ++ [line];
                      inject_calls := inject_calls p;
                      on_dom_ready := on_dom_ready p |}).

Definition call_inject (call : Completion unit) : Eff Page unit :=
  fun p => ({| console := console p;
               inject_calls := S (inject_calls p);
               on_dom_ready := on_dom_ready p |}, call).

(** [function initVercelAnalytics()], with the promise chain run to its
    end; [imported] is what [import("@vercel/analytics")] settles to. *)
Definition initVercelAnalytics (imported : Completion Module_) : Eff Page unit :=
  try_catch
    (module ← lift imported;
     match inject module with
     | Function call =>
         call_inject call;;
         print (ConsoleLog [Text (lit "Vercel Web Analytics initialized successfully")])
     | NotExported | NotAFunction _ =>
         print (ConsoleWarn [Text (lit "Vercel Analytics inject function not found")])
     end)
    (fun error =>
       print (ConsoleWarn [Text (lit "Failed to load Vercel Analytics:");
                           Thrown error])).

(** The body of the script. *)
Definition script (readyState : str) (imported : Completion Module_)
  : Eff Page unit :=
  if bool_decide (readyState = lit "loading") then
    modify (fun p => {| console := console p;
                        inject_calls := inject_calls p;
                        on_dom_ready := true |})
  else initVercelAnalytics imported.

(** The browser fires [DOMContentLoaded]. *)
Definition DOMContentLoaded (imported : Completion Module_) : Eff Page unit :=
  fun p =>
    if on_dom_ready p then initVercelAnalytics imported p else (p, Normal tt).

Definition fresh_page : Page :=
  {| console := []; inject_calls := 0; on_dom_ready := false |}.

(** The page once the script has run, and once the browser has then
    fired [DOMContentLoaded]. *)
Definition after_script (readyState : str) (imported : Completion Module_)
  : Page :=
  (script readyState imported fresh_page).1.

Definition after_dom_ready (readyState : str) (imported : Completion Module_)
  : Page :=
  (DOMContentLoaded imported (after_script readyState imported)).1.

(** Whether the import gives a module whose [inject] is a function, and
    whether moreover the call of it returns. *)
Definition exports_function (imported : Completion Module_) : bool :=
  match imported with
  | Normal {| inject := Function _ |} => true
  | _ => false
  end.

Definition succeeds (imported : Completion Module_) : bool :=
  match imported with
  | Normal {| inject := Function (Normal _) |} => true
  | _ => false
  end.

End Analytics.

(* ===================================================================== *)
(** ** The token-based GitHub push script *)
(* ===================================================================== *)

Module PushScript.
Import Js.

(** What the script does to the outside, in order. *)
Inductive Event : Type :=
| ConsoleLog (line : str)
| ConsoleError (args : list str)
| ExecSync (command : str) (cwd : option str)
| ProcessExit (code : N).

(** How a piece of the script ends: it returns, it throws, or the
    process has exited. *)
Inductive Outcome (A : Type) : Type :=
| Returned (a : A)
| Threw (e : Error)
| Exited.
Arguments Returned {A} a.
Arguments Threw {A} e.
Arguments Exited {A}.

Definition Proc (A : Type) : Type := list Event -> list Event * Outcome A.

#[global] Instance proc_ret : MRet Proc := fun A a t => (t, Returned a).
#[global] Instance proc_bind : MBind Proc := fun A B k c t =>
  match c t with
  | (t', Returned a) => k a t'
  | (t', Threw e) => (t', Threw e)
  | (t', Exited) => (t', Exited)
  end.

Definition emit (e : Event) : Proc unit := fun t => (t ++ [e], Returned tt).

Definition throw {A} (e : Error) : Proc A := fun t => (t, Threw e).

(** [process.exit(code)] does not return. *)
Definition exit {A} (code : N) : Proc A :=
  fun t => (t ++ [ProcessExit code], Exited).

Definition try_ {A} (body : Proc A) (handler : Error -> Proc A) : Proc A :=
  fun t =>
    match body t with
    | (t', Threw e) => handler e t'
    | other => other
    end.

(** The shell: whether a command run by [execSync] succeeds, or the
    error [execSync] throws for it. *)
Definition Shell : Type := str -> Completion unit.

Definition execSync (sh : Shell) (command : str) (cwd : option str) : Proc unit :=
  fun t =>
    (t ++ [ExecSync command cwd],
     match sh command with
     | Normal _ => Returned tt
     | Throw e => Threw e
     end).

Definition log (line : str) : Proc unit := emit (ConsoleLog line).

Definition push_command (token : str) : str :=
  lit "git push https://x-access-token:" ++ token
  ++ lit "@github.com/support371/GemAssist-1.git replit-agent:main -f".

Definition config_email : str :=
  lit "git config user.email " ++ [34%N] ++ lit "gemcyberassist@replit.dev"
  ++ [34%N].

Definition config_name : str :=
  lit "git config user.name " ++ [34%N] ++ lit "GEM Enterprise" ++ [34%N].

(** [async function pushToGitHub()] *)
Definition pushToGitHub (process_env : gmap string str) (sh : Shell) : Proc unit :=
  try_
    (log ([55357%N; 56960%N] ++ lit " GEM ENTERPRISE - GitHub Push");;
     log (lit "====================================");;
     log [];;
     token ← match process_env !! "GITHUB_TOKEN" with
             | Some token =>
                 if truthy_str token then mret token
                 else throw (mkError (lit "GITHUB_TOKEN environment variable not set"))
             | None =>
                 throw (mkError (lit "GITHUB_TOKEN environment variable not set"))
             end;
     log ([9989%N] ++ lit " GitHub token found");;
     log ([55357%N; 56548%N] ++ lit " Pushing to GitHub...");;
     log [];;
     try_
       (execSync sh config_email None;;
        execSync sh config_name None)
       (fun _ => mret tt);;
     try_
       (execSync sh (push_command token) (Some (lit "/home/runner/workspace"));;
        log [];;
        log ([9989%N] ++ lit " SUCCESS! All files pushed to GitHub");;
        log [];;
        log ([55357%N; 56522%N] ++ lit " Push Details:");;
        log (lit "   Repository: https://github.com/support371/GemAssist-1");;
        log (lit "   Branch: replit-agent " ++ [8594%N] ++ lit " main");;
        log (lit "   Files: 33 HTML templates, 5 CSS files, 8 JavaScript files");;
        log [];;
        log ([55356%N; 57225%N] ++ lit " GEM ENTERPRISE ready for deployment!"))
       (fun pushError =>
          emit (ConsoleError [[10060%N] ++ lit " Push failed:"; message pushError]);;
          exit 1))
    (fun error =>
       emit (ConsoleError [[10060%N] ++ lit " Error:"; message error]);;
       exit 1).

(** The commands the script has run, in order. *)
Definition commands (trace : list Event) : list str :=
  omap (fun e => match e with ExecSync c _ => Some c | _ => None end) trace.

(** The exit codes the script has asked for. *)
Definition exits (trace : list Event) : list N :=
  omap (fun e => match e with ProcessExit c => Some c | _ => None end) trace.

End PushScript.

(* ===================================================================== *)
(** ** push_to_github.js: [getAccessToken] *)
(* ===================================================================== *)

Module GitHubToken.
Import Js.

(** ToBoolean on a value.  A number is falsy when it is a zero (all
    bits but the sign clear) or a NaN (exponent all ones, mantissa not
    zero). *)
Definition truthy_value (v : Value) : bool :=
  match v with
  | VUndefined | VNull => false
  | VBool b => b
  | VNumber bits =>
      negb (N.eqb (N.land bits (2 ^ 63 - 1)) 0)
      && negb (N.eqb (N.land (N.shiftr bits 52) 2047) 2047
               && negb (N.eqb (N.land bits (2 ^ 52 - 1)) 0))
  | VString s => truthy_str s
  | VArray _ | VObject _ => true
  end.

Definition nullish_value (v : Value) : bool :=
  match v with
  | VUndefined | VNull => true
  | _ => false
  end.

(** [v?.name]: [undefined] when [v] is [null] or [undefined], the
    property otherwise (for the names used below, which no prototype
    defines). *)
Definition optional (v : Value) (name : str) : Value :=
  match v with
  | VObject props => own_property props name
  | _ => VUndefined
  end.

(** [v[0]] for a [v] that is neither [null] nor [undefined]. *)
Definition first_element (v : Value) : Value :=
  match v with
  | VArray (x :: _) => x
  | VString (c :: _) => VString [c]
  | VObject props => own_property props (lit "0")
  | _ => VUndefined
  end.

(** A call of [fetch(url, {headers})]. *)
Record Request : Type := mkRequest {
  url : str;
  headers : list (str * str);
}.

(** What the network does with a request: the promise of [fetch]
    rejects, or it resolves to a response whose [json()] rejects or
    gives a value. *)
Definition Network : Type := Request -> Completion (Completion Value).

(** The module's [connectionSettings] variable ([null] at first) and
    the requests sent so far. *)
Record State : Type := mkState {
  connectionSettings : Value;
  fetched : list Request;
}.

Definition initial : State := {| connectionSettings := VNull; fetched := [] |}.

Definition fetch (net : Network) (req : Request) : Eff State (Completion Value) :=
  fun st =>
    ({| connectionSettings := connectionSettings st;
        fetched := fetched st ++ [req] |},
     net req).

Definition assign (v : Value) : Eff State unit :=
  modify (fun st => {| connectionSettings := v; fetched := fetched st |}).

(** The condition of the first [if]: the three operands of [&&], left
    to right; [unexpired e] stands for
    [new Date(e).getTime() > Date.now()]. *)
Definition cache_is_fresh (unexpired : Value -> bool) (cs : Value)
  : Completion bool :=
  if truthy_value cs then
    settings ← get_property cs (lit "settings");
    expires_at ← get_property settings (lit "expires_at");
    mret (truthy_value expires_at && unexpired expires_at)
  else mret false.

(** [xReplitToken] *)
Definition xReplitToken (process_env : gmap string str) : option str :=
  if truthy (process_env !! "REPL_IDENTITY") then
    (fun id => lit "repl " ++ id) <$> process_env !! "REPL_IDENTITY"
  else if truthy (process_env !! "WEB_REPL_RENEWAL") then
    (fun renewal => lit "depl " ++ renewal) <$> process_env !! "WEB_REPL_RENEWAL"
  else None.

(** ["https://" + hostname + "/api/v2/connection?..."]; a hostname that
    is not set is spelt "undefined" by the concatenation. *)
Definition connection_url (process_env : gmap string str) : str :=
  lit "https://"
  ++ default (lit "undefined") (process_env !! "REPLIT_CONNECTORS_HOSTNAME")
  ++ lit "/api/v2/connection?include_secrets=true&connector_names=github".

Definition connection_request (process_env : gmap string str) (token : str)
  : Request :=
  {| url := connection_url process_env;
     headers := [ (lit "Accept", lit "application/json");
                  (lit "X_REPLIT_TOKEN", token) ] |}.

(** [connectionSettings?.settings?.access_token ||
     connectionSettings.settings?.oauth?.credentials?.access_token] *)
Definition accessToken_of (cs : Value) : Completion Value :=
  let direct := optional (optional cs (lit "settings")) (lit "access_token") in
  if truthy_value direct then mret direct
  else
    settings ← get_property cs (lit "settings");
    mret (optional
            (optional (optional settings (lit "oauth")) (lit "credentials"))
            (lit "access_token")).

(** [async function getAccessToken()] *)
Definition getAccessToken (process_env : gmap string str)
    (unexpired : Value -> bool) (net : Network) : Eff State Value :=
  fun st =>
    (fresh ← lift (cache_is_fresh unexpired (connectionSettings st));
     if (fresh : bool) then
       lift (settings ← get_property (connectionSettings st) (lit "settings");
             get_property settings (lit "access_token"))
     else
       match xReplitToken process_env with
       | None =>
           lift (Throw (mkError (lit "X_REPLIT_TOKEN not found for repl/depl")))
       | Some token =>
           response ← fetch net (connection_request process_env token);
           data ← lift response;
           items ← lift (get_property data (lit "items"));
           assign (if nullish_value items then VUndefined
                   else first_element items);;
           ((fun st' =>
               (accessToken ← lift (accessToken_of (connectionSettings st'));
                if negb (truthy_value (connectionSettings st'))
                   || negb (truthy_value accessToken)
                then lift (Throw (mkError (lit "GitHub not connected")))
                else mret accessToken) st') : Eff State Value)
       end) st.

(** A network that answers every request with the given JSON. *)
Definition answers (data : Value) : Network :=
  fun _ => Normal (Normal data).

(** A connector whose token sits under [settings.oauth.credentials]. *)
Definition oauth_connector (expires_at token : Value) : Value :=
  VObject
    [ (lit "settings",
       VObject
         [ (lit "expires_at", expires_at);
           (lit "oauth",
            VObject [(lit "credentials",
                      VObject [(lit "access_token", token)])]) ]) ].

End GitHubToken.

(* ===================================================================== *)
(** * Properties *)
(* ===================================================================== *)

Module ConfigSpec.
Import Js Config.

Lemma truthy_nonempty (m : MetaEnv) k :
  nonempty m k <-> truthy (m !! k) = true.
Proof.
  unfold nonempty. split.
  - intros (v & -> & Hv). destruct v; [done | reflexivity].
  - destruct (m !! k) as [[|c v]|]; simpl; try discriminate.
    intros _. exists (c :: v). split; [reflexivity | discriminate].
Qed.

Lemma requireEnv_nonempty (m : MetaEnv) k :
  nonempty m k -> exists v, m !! k = Some v /\ requireEnv m k = Normal v.
Proof.
  intros (v & Hk & Hv). exists v. split; [exact Hk|].
  unfold requireEnv. rewrite Hk. destruct v; [done | reflexivity].
Qed.

Lemma requireEnv_falsy (m : MetaEnv) k :
  truthy (m !! k) = false -> requireEnv m k = Throw (missing k).
Proof. intros H. unfold requireEnv. now rewrite H. Qed.

(** An empty value and no value are the same to [requireEnv], whatever
    name is looked up. *)
Lemma requireEnv_delete_empty (m : MetaEnv) k k' :
  m !! k = Some [] -> requireEnv (delete k m) k' = requireEnv m k'.
Proof.
  intros Hk. unfold requireEnv. destruct (decide (k = k')) as [<-|Hne].
  - now rewrite lookup_delete_eq, Hk.
  - now rewrite lookup_delete_ne.
Qed.

Lemma required_keys_inv k :
  k ∈ required_keys ->
  k = "VITE_ITWIN_CLIENT_ID" \/ k = "VITE_ITWIN_REDIRECT_URI"
  \/ k = "VITE_ITWIN_POST_SIGNOUT_REDIRECT_URI".
Proof.
  unfold required_keys. rewrite !elem_of_cons, elem_of_nil. tauto.
Qed.

(** Construction fails exactly on the first required key, in reading
    order, whose value is absent or empty. *)
Lemma env_throws_first (m : MetaEnv) k :
  k ∈ required_keys -> truthy (m !! k) = false ->
  (forall k', k' ∈ read_before k -> nonempty m k') ->
  env m = Throw (missing k).
Proof.
  intros Hk Hf Hbefore. unfold env.
  destruct (required_keys_inv k Hk) as [-> | [-> | ->]].
  - now rewrite (requireEnv_falsy _ _ Hf).
  - destruct (requireEnv_nonempty m "VITE_ITWIN_CLIENT_ID") as (v1 & _ & ->).
    { apply Hbefore. vm_compute. repeat constructor. }
    simpl. now rewrite (requireEnv_falsy _ _ Hf).
  - destruct (requireEnv_nonempty m "VITE_ITWIN_CLIENT_ID") as (v1 & _ & ->).
    { apply Hbefore. vm_compute. repeat constructor. }
    destruct (requireEnv_nonempty m "VITE_ITWIN_REDIRECT_URI") as (v2 & _ & ->).
    { apply Hbefore. vm_compute. repeat constructor. }
    simpl. now rewrite (requireEnv_falsy _ _ Hf).
Qed.

(** Decide which of the earlier keys a member of [read_before k] is. *)
Ltac earlier_key H :=
  unfold read_before, required_keys in H; simpl in H;
  rewrite ?elem_of_cons, ?elem_of_nil in H;
  intuition (subst; try (apply truthy_nonempty; assumption)).

Lemma env_throws_some (m : MetaEnv) k :
  k ∈ required_keys -> truthy (m !! k) = false ->
  exists k', k' ∈ required_keys /\ truthy (m !! k') = false
             /\ env m = Throw (missing k').
Proof.
  intros Hk Hf.
  destruct (truthy (m !! "VITE_ITWIN_CLIENT_ID")) eqn:T1.
  2:{ eexists. split; [|split; [exact T1|]]; [repeat constructor|].
      apply env_throws_first; [repeat constructor | exact T1 |].
      intros k' Hk'. earlier_key Hk'. }
  destruct (truthy (m !! "VITE_ITWIN_REDIRECT_URI")) eqn:T2.
  2:{ eexists. split; [|split; [exact T2|]]; [repeat constructor|].
      apply env_throws_first; [repeat constructor | exact T2 |].
      intros k' Hk'. earlier_key Hk'. }
  destruct (truthy (m !! "VITE_ITWIN_POST_SIGNOUT_REDIRECT_URI")) eqn:T3.
  2:{ eexists. split; [|split; [exact T3|]]; [repeat constructor|].
      apply env_throws_first; [repeat constructor | exact T3 |].
      intros k' Hk'. earlier_key Hk'. }
  exfalso. destruct (required_keys_inv k Hk) as [-> | [-> | ->]]; congruence.
Qed.

Lemma env_succeeds (m : MetaEnv) :
  (forall k, k ∈ required_keys -> nonempty m k) ->
  exists cfg, env m = Normal cfg.
Proof.
  intros Hall. unfold env.
  destruct (requireEnv_nonempty m "VITE_ITWIN_CLIENT_ID") as (v1 & _ & ->);
    [apply Hall; repeat constructor|].
  destruct (requireEnv_nonempty m "VITE_ITWIN_REDIRECT_URI") as (v2 & _ & ->);
    [apply Hall; repeat constructor|].
  destruct (requireEnv_nonempty m "VITE_ITWIN_POST_SIGNOUT_REDIRECT_URI")
    as (v3 & _ & ->); [apply Hall; repeat constructor|].
  simpl. eexists. reflexivity.
Qed.

(** An empty required variable can be removed without changing the
    outcome of the construction. *)
Lemma env_delete_empty (m : MetaEnv) k :
  k ∈ required_keys -> m !! k = Some [] -> env (delete k m) = env m.
Proof.
  intros Hk He. unfold env. rewrite !(requireEnv_delete_empty m k) by exact He.
  destruct (required_keys_inv k Hk) as [-> | [-> | ->]];
    now rewrite !lookup_delete_ne by discriminate.
Qed.

(** Whenever some required key is absent or empty, construction throws
    for the first such key in reading order. *)
Lemma env_throws_first_falsy (m : MetaEnv) k :
  k ∈ required_keys -> truthy (m !! k) = false ->
  exists k', k' ∈ required_keys /\ truthy (m !! k') = false
             /\ (forall k'', k'' ∈ read_before k' -> nonempty m k'')
             /\ env m = Throw (missing k').
Proof.
  intros Hk Hf.
  assert (Hfirst : forall k0, k0 ∈ required_keys -> truthy (m !! k0) = false ->
                     (forall k'', k'' ∈ read_before k0 -> nonempty m k'') ->
                     exists k', k' ∈ required_keys /\ truthy (m !! k') = false
                       /\ (forall k'', k'' ∈ read_before k' -> nonempty m k'')
                       /\ env m = Throw (missing k')).
  { intros k0 H0 F0 B0. exists k0. repeat split; try assumption.
    now apply env_throws_first. }
  destruct (truthy (m !! "VITE_ITWIN_CLIENT_ID")) eqn:T1.
  2:{ apply (Hfirst "VITE_ITWIN_CLIENT_ID"); [repeat constructor | exact T1 |].
      intros k' Hk'. earlier_key Hk'. }
  destruct (truthy (m !! "VITE_ITWIN_REDIRECT_URI")) eqn:T2.
  2:{ apply (Hfirst "VITE_ITWIN_REDIRECT_URI"); [repeat constructor | exact T2 |].
      intros k' Hk'. earlier_key Hk'. }
  destruct (truthy (m !! "VITE_ITWIN_POST_SIGNOUT_REDIRECT_URI")) eqn:T3.
  2:{ apply (Hfirst "VITE_ITWIN_POST_SIGNOUT_REDIRECT_URI");
        [repeat constructor | exact T3 |].
      intros k' Hk'. earlier_key Hk'. }
  exfalso. destruct (required_keys_inv k Hk) as [-> | [-> | ->]]; congruence.
Qed.

(** C1 (as written) fails at two concrete environments.  With neither
    the client id nor the redirect URI set, the redirect URI is a
    required key whose value is absent, yet the error names the client
    id.  With every required variable set but the client id set to the
    empty string, construction throws although no required key is
    absent. *)
Lemma env_missing_key_counterexample :
  ("VITE_ITWIN_REDIRECT_URI" ∈ required_keys
   /\ sample_two_absent !! "VITE_ITWIN_REDIRECT_URI" = None
   /\ env sample_two_absent = Throw (missing "VITE_ITWIN_CLIENT_ID")
   /\ env sample_two_absent <> Throw (missing "VITE_ITWIN_REDIRECT_URI"))
  /\ ((forall k, k ∈ required_keys -> is_Some (sample_empty_client_id !! k))
      /\ env sample_empty_client_id = Throw (missing "VITE_ITWIN_CLIENT_ID")
      /\ forall cfg, env sample_empty_client_id <> Normal cfg).
Proof.
  split; [split; [|split; [|split]]|split; [|split]].
  - repeat constructor.
  - reflexivity.
  - reflexivity.
  - intros H. inversion H.
  - intros k Hk.
    destruct (required_keys_inv k Hk) as [-> | [-> | ->]]; eexists; reflexivity.
  - reflexivity.
  - intros cfg H. inversion H.
Qed.

(** C1 (amended).  For every required key whose value is absent:
    construction throws, and the message is
    'Missing required env var: <key>' for the first required key in
    reading order whose value is absent or empty (every required key read
    before that one is set to a non-empty value); so it names the absent
    key itself when every required key read before it is set to a
    non-empty value.  When all required keys are set to non-empty values,
    construction succeeds. *)
Theorem env_missing_key_named (m : MetaEnv) :
  (forall k, k ∈ required_keys -> m !! k = None ->
     (exists k', k' ∈ required_keys /\ truthy (m !! k') = false
                 /\ (forall k'', k'' ∈ read_before k' -> nonempty m k'')
                 /\ env m
                    = Throw (mkError (lit "Missing required env var: " ++ lit k')))
     /\ ((forall k', k' ∈ read_before k -> nonempty m k') ->
         env m = Throw (missing k)
         /\ message (missing k) = lit "Missing required env var: " ++ lit k))
  /\ ((forall k, k ∈ required_keys -> nonempty m k) ->
      exists cfg, env m = Normal cfg).
Proof.
  split.
  - intros k Hk Habs.
    assert (Hf : truthy (m !! k) = false) by now rewrite Habs.
    split; [now apply (env_throws_first_falsy m k)|].
    intros Hbefore. split; [now apply env_throws_first | reflexivity].
  - apply env_succeeds.
Qed.

Lemma env_missing_key_named_witness :
  env sample_no_redirect = Throw (missing "VITE_ITWIN_REDIRECT_URI")
  /\ env sample_full = Normal sample_full_env.
Proof.
  destruct (env_missing_key_named sample_no_redirect) as [Hthrow _].
  destruct (env_missing_key_named sample_full) as [_ Hok].
  split.
  - destruct (Hthrow "VITE_ITWIN_REDIRECT_URI") as [_ Hnamed].
    + repeat constructor.
    + reflexivity.
    + apply Hnamed. intros k' Hk'.
      unfold read_before, required_keys in Hk'. simpl in Hk'.
      apply list_elem_of_singleton in Hk' as ->.
      eexists. split; [reflexivity | discriminate].
  - destruct Hok as [cfg Hcfg].
    + intros k Hk.
      destruct (required_keys_inv k Hk) as [-> | [-> | ->]];
        (eexists; split; [reflexivity | discriminate]).
    + reflexivity.
Defined.

(** C8.  Whenever construction succeeds: an absent scope gives
    "itwin-platform", an absent authority gives
    "https://ims.bentley.com", and a scope or authority that is set is
    taken over unchanged. *)
Theorem env_optional_defaults (m : MetaEnv) (cfg : AppEnv) :
  env m = Normal cfg ->
  (m !! "VITE_ITWIN_SCOPE" = None -> scope cfg = lit "itwin-platform")
  /\ (m !! "VITE_ITWIN_AUTHORITY" = None ->
      authority cfg = lit "https://ims.bentley.com")
  /\ (forall v, m !! "VITE_ITWIN_SCOPE" = Some v -> scope cfg = v)
  /\ (forall v, m !! "VITE_ITWIN_AUTHORITY" = Some v -> authority cfg = v).
Proof.
  unfold env. intros H.
  destruct (requireEnv m "VITE_ITWIN_CLIENT_ID"); [|discriminate].
  destruct (requireEnv m "VITE_ITWIN_REDIRECT_URI"); [|discriminate].
  destruct (requireEnv m "VITE_ITWIN_POST_SIGNOUT_REDIRECT_URI"); [|discriminate].
  simpl in H. injection H as <-. simpl.
  repeat split; try (intros v Hv); try (intros Hv); now rewrite Hv.
Qed.

Lemma env_optional_defaults_witness :
  scope sample_full_env = lit "itwin-platform"
  /\ authority sample_full_env = lit "https://qa-ims.bentley.com".
Proof.
  destruct (env_optional_defaults sample_full sample_full_env)
    as (Hscope & _ & _ & Hauth); [reflexivity|].
  split; [apply Hscope | apply Hauth]; reflexivity.
Defined.

(** C9 (as written) fails when an earlier required key is empty as well:
    the redirect URI is set to the empty string, yet the error names the
    client id. *)
Lemma env_empty_value_counterexample :
  "VITE_ITWIN_REDIRECT_URI" ∈ required_keys
  /\ sample_both_empty !! "VITE_ITWIN_REDIRECT_URI" = Some []
  /\ env sample_both_empty = Throw (missing "VITE_ITWIN_CLIENT_ID")
  /\ env sample_both_empty <> Throw (missing "VITE_ITWIN_REDIRECT_URI").
Proof.
  split; [|split; [|split]].
  - repeat constructor.
  - reflexivity.
  - reflexivity.
  - intros H. inversion H.
Qed.

(** C9 (amended).  A required key set to the empty string is treated as
    an absent one: [requireEnv] throws 'Missing required env var: <key>'
    for it, construction has the same outcome as with the variable
    removed, and that outcome is a 'Missing required env var' error; the
    error names the empty key itself when every required key read before
    it is set to a non-empty value. *)
Theorem env_empty_value_as_absent (m : MetaEnv) (k : string) :
  k ∈ required_keys -> m !! k = Some [] ->
  requireEnv m k = Throw (missing k)
  /\ requireEnv m k = requireEnv (delete k m) k
  /\ env m = env (delete k m)
  /\ (exists k', k' ∈ required_keys /\ truthy (m !! k') = false
                 /\ env m = Throw (missing k'))
  /\ ((forall k', k' ∈ read_before k -> nonempty m k') ->
      env m = Throw (missing k)).
Proof.
  intros Hk He.
  assert (Hf : truthy (m !! k) = false) by now rewrite He.
  split; [now apply requireEnv_falsy|].
  split; [now rewrite requireEnv_delete_empty|].
  split; [now rewrite env_delete_empty|].
  split; [now apply (env_throws_some m k)|].
  intros Hbefore. now apply env_throws_first.
Qed.

Lemma env_empty_value_as_absent_witness :
  env sample_empty_post_signout
  = Throw (missing "VITE_ITWIN_POST_SIGNOUT_REDIRECT_URI")
  /\ env sample_empty_post_signout
     = env (delete "VITE_ITWIN_POST_SIGNOUT_REDIRECT_URI"
              sample_empty_post_signout).
Proof.
  destruct (env_empty_value_as_absent sample_empty_post_signout
              "VITE_ITWIN_POST_SIGNOUT_REDIRECT_URI")
    as (_ & _ & Hsame & _ & Hnamed).
  - repeat constructor.
  - reflexivity.
  - split; [|exact Hsame]. apply Hnamed. intros k' Hk'.
    unfold read_before, required_keys in Hk'. simpl in Hk'.
    rewrite !elem_of_cons, elem_of_nil in Hk'.
    destruct Hk' as [-> | [-> | []]];
      (eexists; split; [reflexivity | discriminate]).
Defined.

End ConfigSpec.

Module SigninSpec.
Import Js Signin.

Lemma effect_rejected (e : Error) (p : Page) :
  effect (Throw e) p
  = ({| msg := lit "Sign-in failed: " ++ message e; navigated := navigated p |},
     Normal tt).
Proof. reflexivity. Qed.

Lemma effect_fulfilled (u : unit) (p : Page) :
  effect (Normal u) p
  = ({| msg := msg p; navigated := navigated p ++ [lit "/app/viewer"] |},
     Normal tt).
Proof. reflexivity. Qed.

(** C2.  When [handleSigninCallback] rejects with an error carrying the
    message [m], the page shows exactly 'Sign-in failed: ' followed by
    [m] and does not navigate; for the message "bad state" the text is
    "Sign-in failed: bad state". *)
Theorem signin_rejection_displayed (e : Error) :
  handleSigninCallback (Throw e) = Throw e
  /\ render (settled (Throw e)) = lit "Sign-in failed: " ++ message e
  /\ navigated (settled (Throw e)) = []
  /\ SigninCallback (Throw e)
     = [initial_msg; lit "Sign-in failed: " ++ message e]
  /\ render (settled (Throw (mkError (lit "bad state"))))
     = lit "Sign-in failed: bad state".
Proof.
  unfold settled, SigninCallback. rewrite effect_rejected.
  repeat split; reflexivity.
Qed.

(** C3.  When [handleSigninCallback] resolves, the page navigates to
    '/app/viewer' (once), and no text it ever shows is a
    'Sign-in failed:' message: the text stays the initial one. *)
Theorem signin_success_navigates (u : unit) :
  handleSigninCallback (Normal u) = Normal tt
  /\ navigated (settled (Normal u)) = [lit "/app/viewer"]
  /\ render (settled (Normal u)) = initial_msg
  /\ Forall (fun text => startsWith text (lit "Sign-in failed:") = false)
       (SigninCallback (Normal u)).
Proof.
  unfold settled, SigninCallback. rewrite effect_fulfilled.
  repeat split. repeat constructor.
Qed.

End SigninSpec.

Module ViewerSpec.
Import Js Viewer.

Lemma all_slashes_replicate (s : str) :
  forallb (N.eqb slash) s = true <-> s = replicate (length s) slash.
Proof.
  induction s as [|c s IH]; cbn [forallb length replicate]; [tauto|].
  rewrite andb_true_iff, IH, N.eqb_eq. split.
  - intros [<- <-]. reflexivity.
  - intros H. injection H as <- H. split; [reflexivity | exact H].
Qed.

Lemma forallb_replicate_slash n : forallb (N.eqb slash) (replicate n slash) = true.
Proof. induction n; simpl; auto. Qed.

(** The regular-expression replacement does what "trailing slashes
    stripped" says. *)
Lemma strip_slashes_at_end_stripped (s : str) :
  trailing_slashes_stripped s (strip_slashes_at_end s).
Proof.
  unfold trailing_slashes_stripped.
  induction s as [|c s [[n Hn] Hlast]]; simpl.
  - split; [exists 0%nat; reflexivity | discriminate].
  - destruct (N.eqb c slash && forallb (N.eqb slash) s) eqn:Hall.
    + apply andb_true_iff in Hall as [Hc Hs].
      apply N.eqb_eq in Hc as ->. apply all_slashes_replicate in Hs.
      split; [|discriminate].
      exists (S (length s)). simpl. now rewrite <- Hs.
    + split.
      * exists n. simpl. now rewrite <- Hn.
      * destruct (strip_slashes_at_end s) as [|d r] eqn:Hr.
        -- simpl in *. intros [= ->].
           rewrite Hn, forallb_replicate_slash, N.eqb_refl in Hall.
           discriminate.
        -- exact Hlast.
Qed.

(** A base URL without a slash at its end is left as it is, and
    slashes elsewhere are kept. *)
Lemma strip_slashes_at_end_app (r : str) n :
  last r <> Some slash ->
  strip_slashes_at_end (r ++ replicate n slash) = r.
Proof.
  intros Hlast. induction r as [|c r IH]; cbn [app strip_slashes_at_end].
  - destruct n; cbn [replicate strip_slashes_at_end]; [reflexivity|].
    now rewrite N.eqb_refl, forallb_replicate_slash.
  - destruct (N.eqb c slash && forallb (N.eqb slash) (r ++ replicate n slash))
      eqn:Hall.
    + exfalso. apply andb_true_iff in Hall as [Hc Hs].
      apply N.eqb_eq in Hc as ->.
      rewrite forallb_app in Hs. apply andb_true_iff in Hs as [Hr _].
      apply Hlast. clear -Hr.
      assert (Hgen : forall a, last (a :: r) = Some slash \/ a <> slash).
      { induction r as [|d r IH]; intros a.
        - destruct (decide (a = slash)) as [->|]; [now left | now right].
        - cbn [forallb] in Hr. apply andb_true_iff in Hr as [Hd Hr].
          apply N.eqb_eq in Hd as <-.
          destruct (IH Hr slash) as [H|H]; [left; exact H | congruence]. }
      destruct (Hgen slash); congruence.
    + f_equal. apply IH. destruct r; [discriminate | exact Hlast].
Qed.

(** The spec's words determine the result. *)
Lemma trailing_slashes_stripped_unique (s r : str) :
  trailing_slashes_stripped s r -> r = strip_slashes_at_end s.
Proof.
  intros [[n ->] Hlast]. now rewrite strip_slashes_at_end_app.
Qed.

(** C7.  Whatever was selected before, a click on the second hotspot
    ('showroom') makes the panel show that hotspot's title, description
    and link; the link's href is the configured [marketingBaseUrl] with
    the slashes at its end stripped, followed by the hotspot's
    [ctaPath]. *)
Theorem viewer_second_hotspot (cfg : Config.AppEnv) (selected : State) :
  exists h,
    DEFAULT_HOTSPOTS !! 1%nat = Some h
    /\ id h = lit "showroom"
    /\ click 1 selected = Some h
    /\ details cfg (click 1 selected)
       = Card (title h) (description h)
           (strip_slashes_at_end (Config.marketingBaseUrl cfg) ++ ctaPath h)
           (ctaLabel h)
    /\ details cfg (click 1 selected)
       = Card (lit "Showroom")
           (lit "Explore services and offerings tied to model locations.")
           (strip_slashes_at_end (Config.marketingBaseUrl cfg) ++ lit "/services")
           (lit "View Services")
    /\ trailing_slashes_stripped (Config.marketingBaseUrl cfg)
         (strip_slashes_at_end (Config.marketingBaseUrl cfg))
    /\ (forall r, trailing_slashes_stripped (Config.marketingBaseUrl cfg) r ->
                  marketingUrl cfg (ctaPath h) = r ++ ctaPath h).
Proof.
  eexists. split; [reflexivity|].
  split; [reflexivity|]. split; [reflexivity|].
  split; [reflexivity|]. split; [reflexivity|].
  split; [apply strip_slashes_at_end_stripped|].
  intros r Hr. rewrite (trailing_slashes_stripped_unique _ _ Hr). reflexivity.
Qed.

Lemma viewer_second_hotspot_witness :
  details Config.sample_full_env (click 1 initial)
  = Card (lit "Showroom")
      (lit "Explore services and offerings tied to model locations.")
      (lit "/services")
      (lit "View Services").
Proof.
  destruct (viewer_second_hotspot Config.sample_full_env initial)
    as (h & _ & _ & _ & _ & Hcard & _).
  exact Hcard.
Defined.

End ViewerSpec.

Module ChatSpec.
Import Js Chat.

(** *** Escaping *)

Lemma replace_all_app c by_ (a b : str) :
  replace_all c by_ (a ++ b) = replace_all c by_ a ++ replace_all c by_ b.
Proof.
  induction a as [|x a IH]; cbn [replace_all app]; [reflexivity|].
  now rewrite IH, app_assoc.
Qed.

Lemma escape_app (a b : str) : escape (a ++ b) = escape a ++ escape b.
Proof. unfold escape. now rewrite !replace_all_app. Qed.

Lemma escape_single (c : N) : escape [c] = escape_unit c.
Proof.
  unfold escape, escape_unit. cbn [replace_all].
  destruct (N.eqb c ampersand) eqn:Ha; [reflexivity|].
  cbn [replace_all app]. destruct (N.eqb c less_than) eqn:Hl; [reflexivity|].
  cbn [replace_all app]. destruct (N.eqb c greater_than) eqn:Hg; reflexivity.
Qed.

(** The three replacements in a row, ampersands first, amount to
    replacing each code unit on its own. *)
Lemma escape_is_escape_spec (s : str) : escape s = escape_spec s.
Proof.
  induction s as [|c s IH]; [reflexivity|].
  change (c :: s) with ([c] ++ s).
  rewrite escape_app, escape_single, IH. reflexivity.
Qed.

Lemma escape_unit_no_angle (c x : N) :
  x ∈ escape_unit c -> x <> less_than /\ x <> greater_than.
Proof.
  unfold escape_unit.
  assert (Hlit : forall l : str, forallb (fun y => negb (N.eqb y less_than || N.eqb y greater_than)) l = true ->
                 x ∈ l -> x <> less_than /\ x <> greater_than).
  { intros l Hl Hx. apply list_elem_of_In in Hx.
    rewrite forallb_forall in Hl. specialize (Hl x Hx).
    apply negb_true_iff, orb_false_iff in Hl as [H1 H2].
    now apply N.eqb_neq in H1, H2. }
  destruct (N.eqb c ampersand); [now apply Hlit|].
  destruct (N.eqb c less_than) eqn:Hl; [now apply Hlit|].
  destruct (N.eqb c greater_than) eqn:Hg; [now apply Hlit|].
  intros H. apply list_elem_of_singleton in H as ->.
  apply N.eqb_neq in Hl, Hg. auto.
Qed.

Lemma escape_no_angle (s : str) : (less_than ∉ escape s) /\ (greater_than ∉ escape s).
Proof.
  rewrite escape_is_escape_spec. unfold escape_spec.
  split; intros H; apply list_elem_of_In, in_flat_map in H as (c & _ & Hc);
    apply list_elem_of_In, escape_unit_no_angle in Hc; tauto.
Qed.

Lemma decode_refs_amp (r : str) :
  decode_refs 0 (lit "&amp;" ++ r) = ampersand :: decode_refs 0 r.
Proof. reflexivity. Qed.

Lemma decode_refs_lt (r : str) :
  decode_refs 0 (lit "&lt;" ++ r) = less_than :: decode_refs 0 r.
Proof. reflexivity. Qed.

Lemma decode_refs_gt (r : str) :
  decode_refs 0 (lit "&gt;" ++ r) = greater_than :: decode_refs 0 r.
Proof. reflexivity. Qed.

(** An ampersand in the output always begins one of the three
    references, so reading the references back gives the input. *)
Lemma decode_refs_escape (s : str) : decode_refs 0 (escape_spec s) = s.
Proof.
  induction s as [|c s IH]; [reflexivity|].
  unfold escape_spec in *. cbn [flat_map]. unfold escape_unit at 1.
  destruct (N.eqb c ampersand) eqn:Ha.
  { apply N.eqb_eq in Ha as ->. now rewrite decode_refs_amp, IH. }
  destruct (N.eqb c less_than) eqn:Hl.
  { apply N.eqb_eq in Hl as ->. now rewrite decode_refs_lt, IH. }
  destruct (N.eqb c greater_than) eqn:Hg.
  { apply N.eqb_eq in Hg as ->. now rewrite decode_refs_gt, IH. }
  cbn [app decode_refs]. now rewrite Ha, IH.
Qed.

Lemma strip_tags_no_lt (s : str) : less_than ∉ s -> strip_tags false s = s.
Proof.
  induction s as [|c s IH]; [reflexivity|].
  intros H. apply not_elem_of_cons in H as [Hc Hs].
  cbn [strip_tags]. apply not_eq_sym, N.eqb_neq in Hc. rewrite Hc.
  now rewrite IH.
Qed.

(** The text the browser shows for a message is the sender's label
    followed by the very text that was passed in. *)
Lemma shown_text_message (sender text type : str) :
  sender = lit "You" \/ sender = lit "AI" ->
  shown_text {| classList := [lit "message"; type];
                innerHTML := lit "<b>" ++ sender ++ lit ":</b> " ++ escape text |}
  = sender ++ lit ": " ++ text.
Proof.
  unfold shown_text. cbn [innerHTML].
  pose proof (escape_no_angle text) as [Hlt _].
  intros [-> | ->].
  - change (strip_tags false (lit "<b>" ++ lit "You" ++ lit ":</b> " ++ escape text))
      with (lit "You: " ++ strip_tags false (escape text)).
    rewrite (strip_tags_no_lt _ Hlt).
    change (decode_refs 0 (lit "You: " ++ escape text))
      with (lit "You: " ++ decode_refs 0 (escape text)).
    now rewrite escape_is_escape_spec, decode_refs_escape.
  - change (strip_tags false (lit "<b>" ++ lit "AI" ++ lit ":</b> " ++ escape text))
      with (lit "AI: " ++ strip_tags false (escape text)).
    rewrite (strip_tags_no_lt _ Hlt).
    change (decode_refs 0 (lit "AI: " ++ escape text))
      with (lit "AI: " ++ decode_refs 0 (escape text)).
    now rewrite escape_is_escape_spec, decode_refs_escape.
Qed.

(** *** One send *)

#[local] Arguments lit : simpl never.
#[local] Arguments escape : simpl never.
#[local] Arguments chat_request : simpl never.
#[local] Arguments classList_add : simpl never.

Lemma classList_add_user :
  classList_add (lit "user") = Normal [lit "message"; lit "user"].
Proof. reflexivity. Qed.

Lemma classList_add_ai :
  classList_add (lit "ai") = Normal [lit "message"; lit "ai"].
Proof. reflexivity. Qed.

Ltac settle_world :=
  unfold with_box, with_button, with_input, scroll_to_bottom, appendChild,
    set_textContent, set_disabled, focus, set_value;
  cbn; rewrite <- ?app_assoc; reflexivity.

Lemma sendMessage_sends (net : Network) (w : World) input box btn :
  inputEl w = Some input -> chatboxEl w = Some box -> sendBtn w = Some btn ->
  trim (value input) <> [] ->
  sendMessage net w
  = ({| inputEl := Some {| value := []; focused := true |};
        chatboxEl :=
          Some {| children :=
                    children box
                    ++ [paragraph (lit "You") (trim (value input)) (lit "user");
                        paragraph (lit "AI")
                          (assistant_text net (trim (value input))) (lit "ai")];
                  at_bottom := true |};
        sendBtn := Some {| disabled := false; textContent := lit "Send" |};
        sent := sent w ++ [chat_request (trim (value input))] |},
     Normal tt).
Proof.
  intros Hi Hb Hs Ht. unfold sendMessage. rewrite Hi, Hb, Hs.
  destruct (trim (value input)) as [|c t] eqn:Htext; [done|].
  cbn [truthy_str negb].
  destruct w as [wi wb ws wsent]. cbn in Hi, Hb, Hs. subst wi wb ws.
  unfold assistant_text, paragraph.
  repeat (progress (unfold mbind, eff_bind, modify, try_finally, try_catch,
                      fetch, lift, appendMessage;
                    rewrite ?classList_add_user, ?classList_add_ai; cbn)).
  destruct (net (chat_request (c :: t))) as [response|e]; cbn;
    [|settle_world].
  destruct (json response) as [data|e]; cbn; [|settle_world].
  destruct (get_property data (lit "reply")) as [reply|e]; cbn;
    [|settle_world].
  destruct reply; cbn; settle_world.
Qed.

Lemma assistant_text_fetch_rejects (net : Network) text e :
  net (chat_request text) = Throw e -> assistant_text net text = fallback.
Proof. intros H. unfold assistant_text. now rewrite H. Qed.

Lemma assistant_text_json_rejects (net : Network) text response e :
  net (chat_request text) = Normal response -> json response = Throw e ->
  assistant_text net text = fallback.
Proof. intros H1 H2. unfold assistant_text. now rewrite H1, H2. Qed.

Lemma assistant_text_reply (net : Network) text response props reply :
  net (chat_request text) = Normal response ->
  json response = Normal (VObject props) ->
  own_property props (lit "reply") = VString reply ->
  assistant_text net text = reply.
Proof.
  intros H1 H2 H3. unfold assistant_text. rewrite H1, H2.
  cbn [get_property]. now rewrite H3.
Qed.

(** *** Trimming *)

Lemma trimStart_nil (s : str) :
  trimStart s = [] <-> forallb is_white_space s = true.
Proof.
  induction s as [|c s IH]; cbn [trimStart forallb]; [tauto|].
  destruct (is_white_space c); cbn [andb]; [exact IH|].
  split; discriminate.
Qed.

Lemma trimStart_idem (s : str) : trimStart (trimStart s) = trimStart s.
Proof.
  induction s as [|c s IH]; [reflexivity|].
  cbn [trimStart]. destruct (is_white_space c) eqn:Hc; [exact IH|].
  cbn [trimStart]. now rewrite Hc.
Qed.

Lemma forallb_rev_eq {A} (f : A -> bool) (l : list A) :
  forallb f (rev l) = forallb f l.
Proof.
  induction l as [|x l IH]; [reflexivity|].
  cbn [rev forallb]. rewrite forallb_app, IH. cbn [forallb].
  destruct (f x), (forallb f l); reflexivity.
Qed.

(** The trimmed text is empty exactly for the empty and the
    whitespace-only inputs. *)
Lemma trim_nil (s : str) : trim s = [] <-> forallb is_white_space s = true.
Proof.
  unfold trim, trimEnd. split.
  - intros H. apply (f_equal (@rev N)) in H. rewrite rev_involutive in H.
    cbn [rev] in H. apply trimStart_nil in H. rewrite forallb_rev_eq in H.
    apply trimStart_nil in H. rewrite trimStart_idem in H.
    now apply trimStart_nil.
  - intros H. apply trimStart_nil in H. now rewrite H.
Qed.

(** *** The claims *)

(** C4.  With "hello" in the input field (surrounding whitespace
    allowed) and a fetch that resolves with the JSON body
    {reply:"hi"}, exactly two paragraphs are appended to the chat box:
    first the user's, shown as 'You: hello', then the assistant's, shown
    as 'AI: hi'. *)
Theorem sendMessage_hello_hi (net : Network) (w : World) input box btn response :
  inputEl w = Some input -> chatboxEl w = Some box -> sendBtn w = Some btn ->
  trim (value input) = lit "hello" ->
  net (chat_request (lit "hello")) = Normal response ->
  json response = Normal (VObject [(lit "reply", VString (lit "hi"))]) ->
  exists w' user ai,
    sendMessage net w = (w', Normal tt)
    /\ chatboxEl w'
       = Some {| children := children box ++ [user; ai]; at_bottom := true |}
    /\ user = {| classList := [lit "message"; lit "user"];
                 innerHTML := lit "<b>You:</b> hello" |}
    /\ ai = {| classList := [lit "message"; lit "ai"];
               innerHTML := lit "<b>AI:</b> hi" |}
    /\ shown_text user = lit "You: hello"
    /\ shown_text ai = lit "AI: hi"
    /\ sent w' = sent w ++ [chat_request (lit "hello")].
Proof.
  intros Hi Hb Hs Ht Hnet Hjson.
  pose proof (sendMessage_sends net w input box btn Hi Hb Hs) as Hsend.
  rewrite Ht in Hsend.
  rewrite (assistant_text_reply net _ _ _ (lit "hi") Hnet Hjson) in Hsend
    by reflexivity.
  eexists _, _, _. split; [apply Hsend; discriminate|].
  cbn [chatboxEl sent]. repeat split; reflexivity.
Qed.

Lemma sendMessage_hello_hi_witness :
  exists user ai,
    chatboxEl (sendMessage net_reply_hi (sample_world (lit "hello"))).1
    = Some {| children := [user; ai]; at_bottom := true |}
    /\ shown_text user = lit "You: hello"
    /\ shown_text ai = lit "AI: hi".
Proof.
  destruct (sendMessage_hello_hi net_reply_hi (sample_world (lit "hello"))
              {| value := lit "hello"; focused := true |}
              {| children := []; at_bottom := true |}
              {| disabled := false; textContent := lit "Send" |}
              {| status := 200;
                 json := Normal (VObject [(lit "reply", VString (lit "hi"))]) |})
    as (w' & user & ai & Hrun & Hbox & _ & _ & Hu & Ha & _);
    try reflexivity.
  exists user, ai. rewrite Hrun. cbn [fst]. rewrite Hbox.
  split; [reflexivity|]. split; assumption.
Defined.

(** C5.  When the fetch rejects, or the response's [json()] rejects, the
    assistant paragraph that is appended carries exactly the text
    'Sorry, something went wrong while contacting the assistant.', and
    once the send has finished the button is enabled and labelled
    'Send'. *)
Theorem sendMessage_rejected_fetch (net : Network) (w : World) input box btn :
  inputEl w = Some input -> chatboxEl w = Some box -> sendBtn w = Some btn ->
  trim (value input) <> [] ->
  (exists e, net (chat_request (trim (value input))) = Throw e)
  \/ (exists response e,
        net (chat_request (trim (value input))) = Normal response
        /\ json response = Throw e) ->
  exists w' user ai,
    sendMessage net w = (w', Normal tt)
    /\ chatboxEl w'
       = Some {| children := children box ++ [user; ai]; at_bottom := true |}
    /\ ai = {| classList := [lit "message"; lit "ai"];
               innerHTML :=
                 lit "<b>AI:</b> "
                 ++ lit "Sorry, something went wrong while contacting the assistant." |}
    /\ shown_text ai
       = lit "AI: "
         ++ lit "Sorry, something went wrong while contacting the assistant."
    /\ sendBtn w' = Some {| disabled := false; textContent := lit "Send" |}.
Proof.
  intros Hi Hb Hs Ht Hfail.
  pose proof (sendMessage_sends net w input box btn Hi Hb Hs Ht) as Hsend.
  assert (Hfb : assistant_text net (trim (value input)) = fallback).
  { destruct Hfail as [[e He] | (response & e & Hr & He)].
    - now apply (assistant_text_fetch_rejects net _ e).
    - now apply (assistant_text_json_rejects net _ response e). }
  rewrite Hfb in Hsend.
  eexists _, _, _. split; [exact Hsend|].
  cbn [chatboxEl sendBtn]. repeat split; reflexivity.
Qed.

Lemma sendMessage_rejected_fetch_witness :
  exists user ai,
    chatboxEl (sendMessage net_down (sample_world (lit "hello"))).1
    = Some {| children := [user; ai]; at_bottom := true |}
    /\ shown_text ai
       = lit "AI: Sorry, something went wrong while contacting the assistant."
    /\ sendBtn (sendMessage net_down (sample_world (lit "hello"))).1
       = Some {| disabled := false; textContent := lit "Send" |}.
Proof.
  destruct (sendMessage_rejected_fetch net_down (sample_world (lit "hello"))
              {| value := lit "hello"; focused := true |}
              {| children := []; at_bottom := true |}
              {| disabled := false; textContent := lit "Send" |})
    as (w' & user & ai & Hrun & Hbox & _ & Ha & Hbtn);
    try reflexivity.
  - discriminate.
  - left. eexists. reflexivity.
  - exists user, ai. rewrite Hrun. cbn [fst]. rewrite Hbox, Hbtn.
    split; [reflexivity|]. split; [exact Ha | reflexivity].
Defined.

(** C6.  On every string, [escapeHtml] returns the string with each '&'
    replaced by '&amp;', each '<' by '&lt;' and each '>' by '&gt;' (the
    ampersands of the input only, as they are replaced first), and the
    result holds no raw '<' or '>'.  '<script>' becomes
    '&lt;script&gt;', wherever it stands in the input.  This escaped text
    is what [appendMessage] writes after the sender's label into the
    paragraph it appends, for the two message types the script uses. *)
Theorem escapeHtml_escapes (s : str) :
  escapeHtml (VString s) = Normal (escape_spec s)
  /\ (less_than ∉ escape_spec s) /\ (greater_than ∉ escape_spec s)
  /\ escapeHtml (VString (lit "<script>")) = Normal (lit "&lt;script&gt;")
  /\ (forall a b : str,
        escapeHtml (VString (a ++ lit "<script>" ++ b))
        = Normal (escape_spec a ++ lit "&lt;script&gt;" ++ escape_spec b))
  /\ (forall (sender type : str) (w : World),
        is_Some (chatboxEl w) ->
        type = lit "user" \/ type = lit "ai" ->
        exists p,
          (children <$> chatboxEl (appendMessage sender (VString s) type w).1)
          = (fun b => children b ++ [p]) <$> chatboxEl w
          /\ classList p = [lit "message"; type]
          /\ innerHTML p = lit "<b>" ++ sender ++ lit ":</b> " ++ escape_spec s).
Proof.
  cbn [escapeHtml].
  split; [now rewrite escape_is_escape_spec|].
  rewrite <- !escape_is_escape_spec.
  split; [apply escape_no_angle|]. split; [apply escape_no_angle|].
  split; [reflexivity|]. split.
  - intros a b. rewrite !escape_app, <- !escape_is_escape_spec. reflexivity.
  - intros sender type w [box Hbox] Htype.
    exists (paragraph sender s type).
    split; [|split].
    + unfold appendMessage. rewrite Hbox.
      destruct w as [wi wb ws wsent]. cbn in Hbox. subst wb.
      destruct Htype as [-> | ->];
        unfold mbind, eff_bind, lift;
        rewrite ?classList_add_user, ?classList_add_ai; reflexivity.
    + reflexivity.
    + unfold paragraph. cbn [innerHTML]. now rewrite escape_is_escape_spec.
Qed.

Lemma escapeHtml_escapes_witness :
  exists p,
    (children <$> chatboxEl
       (appendMessage (lit "You") (VString (lit "a<script>&b")) (lit "user")
          (sample_world [])).1)
    = Some [p]
    /\ innerHTML p = lit "<b>You:</b> a&lt;script&gt;&amp;b".
Proof.
  destruct (escapeHtml_escapes (lit "a<script>&b")) as (_ & _ & _ & _ & _ & Happ).
  destruct (Happ (lit "You") (lit "user") (sample_world []))
    as (p & Hc & _ & Hh).
  - eexists. reflexivity.
  - left. reflexivity.
  - exists p. split; [exact Hc | exact Hh].
Defined.

(** C10.  When the input's trimmed text is empty, i.e. the input is empty
    or whitespace only, a send changes nothing: the chat box, the input
    field, the list of requests sent and the button are all as before. *)
Theorem sendMessage_blank_noop (net : Network) (w : World) input :
  inputEl w = Some input ->
  trim (value input) = [] ->
  forallb is_white_space (value input) = true
  /\ sendMessage net w = (w, Normal tt)
  /\ chatboxEl (sendMessage net w).1 = chatboxEl w
  /\ inputEl (sendMessage net w).1 = Some input
  /\ sent (sendMessage net w).1 = sent w
  /\ sendBtn (sendMessage net w).1 = sendBtn w.
Proof.
  intros Hi Ht. split; [now apply trim_nil|].
  assert (Hrun : sendMessage net w = (w, Normal tt)).
  { unfold sendMessage. rewrite Hi, Ht.
    destruct (chatboxEl w), (sendBtn w); reflexivity. }
  rewrite Hrun. cbn [fst]. repeat split; [exact Hi].
Qed.

Lemma sendMessage_blank_noop_witness :
  sendMessage net_reply_hi (sample_world (lit "   "))
  = (sample_world (lit "   "), Normal tt).
Proof.
  destruct (sendMessage_blank_noop net_reply_hi (sample_world (lit "   "))
              {| value := lit "   "; focused := true |})
    as (_ & Hrun & _); [reflexivity | reflexivity | exact Hrun].
Defined.

End ChatSpec.

(* ===================================================================== *)
(** * Further properties of the code *)
(* ===================================================================== *)

Module JsFacts.
Import Js.

Lemma startsWith_prefix (s p : str) :
  startsWith s p = true <-> exists rest, s = p ++ rest.
Proof.
  revert s. induction p as [|a p IH]; intros s; cbn [startsWith].
  - split; [intros _; now exists s | reflexivity].
  - destruct s as [|b s].
    + split; [discriminate | intros [rest H]; discriminate].
    + rewrite andb_true_iff, N.eqb_eq, IH. split.
      * intros [-> [rest ->]]. now exists rest.
      * intros [rest H]. injection H as -> ->. split; [reflexivity | now exists rest].
Qed.

Lemma startsWith_trans (s p q : str) :
  startsWith s p = true -> startsWith p q = true -> startsWith s q = true.
Proof.
  rewrite !startsWith_prefix. intros [r1 ->] [r2 ->].
  exists (r2 ++ r1). now rewrite app_assoc.
Qed.

(** [trimStart] removes a run of whitespace from the front and stops at
    the first code unit that is not whitespace. *)
Lemma trimStart_split (s : str) :
  exists pre, s = pre ++ trimStart s /\ forallb is_white_space pre = true.
Proof.
  induction s as [|c s (pre & Hs & Hpre)]; [now exists []|].
  cbn [trimStart]. destruct (is_white_space c) eqn:Hc.
  - exists (c :: pre). cbn [app forallb]. rewrite Hc, Hpre. split; [now f_equal | reflexivity].
  - now exists [].
Qed.

Lemma trimStart_head (s : str) c rest :
  trimStart s = c :: rest -> is_white_space c = false.
Proof.
  induction s as [|d s IH]; [discriminate|].
  cbn [trimStart]. destruct (is_white_space d) eqn:Hd; [exact IH|].
  intros [= -> _]. exact Hd.
Qed.

Lemma forallb_rev_ws (l : str) :
  forallb is_white_space (rev l) = forallb is_white_space l.
Proof.
  induction l as [|x l IH]; [reflexivity|].
  cbn [rev forallb]. rewrite forallb_app, IH. cbn [forallb].
  destruct (is_white_space x), (forallb is_white_space l); reflexivity.
Qed.

(** [trim] cuts whitespace off both ends and nothing else. *)
Lemma trim_split (s : str) :
  exists pre post,
    s = pre ++ trim s ++ post
    /\ forallb is_white_space pre = true
    /\ forallb is_white_space post = true.
Proof.
  unfold trim, trimEnd.
  destruct (trimStart_split s) as (pre & Hs & Hpre).
  destruct (trimStart_split (rev (trimStart s))) as (q & Hr & Hq).
  exists pre, (rev q). split; [|split; [exact Hpre | now rewrite forallb_rev_ws]].
  rewrite Hs at 1. f_equal.
  apply (f_equal (@rev N)) in Hr. rewrite rev_involutive, rev_app_distr in Hr.
  exact Hr.
Qed.

Lemma trim_head (s : str) c rest :
  trim s = c :: rest -> is_white_space c = false.
Proof.
  unfold trim, trimEnd. intros H.
  destruct (trimStart_split (rev (trimStart s))) as (q & Hr & Hq).
  apply (f_equal (@rev N)) in Hr. rewrite rev_involutive, rev_app_distr, H in Hr.
  cbn [app] in Hr. now apply trimStart_head in Hr.
Qed.

Lemma trim_last (s : str) c :
  last (trim s) = Some c -> is_white_space c = false.
Proof.
  unfold trim, trimEnd.
  destruct (trimStart (rev (trimStart s))) as [|d t] eqn:Ht; [discriminate|].
  cbn [rev]. rewrite last_snoc. intros [= <-].
  now apply trimStart_head in Ht.
Qed.

Lemma trimStart_fixed (s : str) :
  match s with [] => True | c :: _ => is_white_space c = false end ->
  trimStart s = s.
Proof. destruct s as [|c s]; [reflexivity|]. cbn [trimStart]. now intros ->. Qed.

Lemma trim_idempotent (s : str) : trim (trim s) = trim s.
Proof.
  assert (Hstart : trimStart (trim s) = trim s).
  { apply trimStart_fixed. destruct (trim s) as [|c r] eqn:Ht; [exact I|].
    now apply trim_head in Ht. }
  unfold trim at 1. rewrite Hstart. unfold trimEnd.
  assert (Hend : trimStart (rev (trim s)) = rev (trim s)).
  { apply trimStart_fixed. destruct (rev (trim s)) as [|c r] eqn:Hr; [exact I|].
    apply (trim_last s). apply (f_equal (@rev N)) in Hr.
    rewrite rev_involutive in Hr. rewrite Hr. cbn [rev]. apply last_snoc. }
  now rewrite Hend, rev_involutive.
Qed.

End JsFacts.

Module ConfigMore.
Import Js Config.

Lemma requireEnv_normal_inv (m : MetaEnv) k v :
  requireEnv m k = Normal v -> m !! k = Some v /\ v <> [].
Proof.
  unfold requireEnv. destruct (m !! k) as [[|c s]|]; cbn; try discriminate.
  intros [= <-]. split; [reflexivity | discriminate].
Qed.

Lemma requireEnv_throw_inv (m : MetaEnv) k e :
  requireEnv m k = Throw e -> truthy (m !! k) = false /\ e = missing k.
Proof.
  unfold requireEnv. destruct (m !! k) as [[|c s]|]; cbn; try discriminate;
    intros [= <-]; split; reflexivity.
Qed.

(** X1.  A configuration that was constructed holds, for each required
    key, the value the environment has for it, and that value is not
    empty; the OIDC client is therefore always created with a non-empty
    client id and redirect URIs, and with the code flow. *)
Theorem env_constructed_fields (m : MetaEnv) (cfg : AppEnv) :
  env m = Normal cfg ->
  (m !! "VITE_ITWIN_CLIENT_ID" = Some (itwinClientId cfg)
   /\ itwinClientId cfg <> [])
  /\ (m !! "VITE_ITWIN_REDIRECT_URI" = Some (redirectUri cfg)
      /\ redirectUri cfg <> [])
  /\ (m !! "VITE_ITWIN_POST_SIGNOUT_REDIRECT_URI"
      = Some (postSignoutRedirectUri cfg)
      /\ postSignoutRedirectUri cfg <> [])
  /\ demoITwinId cfg = m !! "VITE_DEMO_ITWIN_ID"
  /\ demoIModelId cfg = m !! "VITE_DEMO_IMODEL_ID"
  /\ (forall k, k ∈ required_keys -> nonempty m k)
  /\ Oidc.clientId (Oidc.authClientOptions cfg) <> []
  /\ Oidc.redirectUri (Oidc.authClientOptions cfg) <> []
  /\ Oidc.postSignoutRedirectUri (Oidc.authClientOptions cfg) <> []
  /\ Oidc.responseType (Oidc.authClientOptions cfg) = lit "code".
Proof.
  unfold env. intros H.
  destruct (requireEnv m "VITE_ITWIN_CLIENT_ID") as [v1|] eqn:E1; [|discriminate].
  destruct (requireEnv m "VITE_ITWIN_REDIRECT_URI") as [v2|] eqn:E2; [|discriminate].
  destruct (requireEnv m "VITE_ITWIN_POST_SIGNOUT_REDIRECT_URI") as [v3|] eqn:E3;
    [|discriminate].
  cbn in H. injection H as <-. cbn.
  apply requireEnv_normal_inv in E1 as [L1 N1], E2 as [L2 N2], E3 as [L3 N3].
  repeat split; try assumption.
  intros k Hk. destruct (ConfigSpec.required_keys_inv k Hk) as [-> | [-> | ->]];
    eexists; eauto.
Qed.

Lemma env_constructed_fields_witness :
  sample_full !! "VITE_ITWIN_CLIENT_ID" = Some (lit "spa-abc")
  /\ Oidc.clientId (Oidc.authClientOptions sample_full_env) <> [].
Proof.
  destruct (env_constructed_fields sample_full sample_full_env)
    as ([H1 _] & _ & _ & _ & _ & _ & Hid & _); [reflexivity|].
  split; [exact H1 | exact Hid].
Defined.

(** X2.  When construction throws, the error is the
    'Missing required env var' error of a required key that is absent or
    empty, and every required key read before that one is set to a
    non-empty value: there is no other way for it to fail. *)
Theorem env_throw_is_first_missing (m : MetaEnv) (e : Error) :
  env m = Throw e ->
  exists k,
    k ∈ required_keys
    /\ truthy (m !! k) = false
    /\ (forall k', k' ∈ read_before k -> nonempty m k')
    /\ e = missing k.
Proof.
  unfold env. intros H.
  destruct (requireEnv m "VITE_ITWIN_CLIENT_ID") as [v1|e1] eqn:E1.
  2:{ cbn in H. injection H as <-. apply requireEnv_throw_inv in E1 as [F1 ->].
      exists "VITE_ITWIN_CLIENT_ID". split; [repeat constructor|].
      split; [exact F1|]. split; [|reflexivity].
      intros k' Hk'. ConfigSpec.earlier_key Hk'. }
  apply requireEnv_normal_inv in E1 as [L1 N1].
  assert (T1 : truthy (m !! "VITE_ITWIN_CLIENT_ID") = true)
    by (apply ConfigSpec.truthy_nonempty; eexists; eauto).
  destruct (requireEnv m "VITE_ITWIN_REDIRECT_URI") as [v2|e2] eqn:E2.
  2:{ cbn in H. injection H as <-. apply requireEnv_throw_inv in E2 as [F2 ->].
      exists "VITE_ITWIN_REDIRECT_URI". split; [repeat constructor|].
      split; [exact F2|]. split; [|reflexivity].
      intros k' Hk'. ConfigSpec.earlier_key Hk'. }
  apply requireEnv_normal_inv in E2 as [L2 N2].
  assert (T2 : truthy (m !! "VITE_ITWIN_REDIRECT_URI") = true)
    by (apply ConfigSpec.truthy_nonempty; eexists; eauto).
  destruct (requireEnv m "VITE_ITWIN_POST_SIGNOUT_REDIRECT_URI") as [v3|e3] eqn:E3.
  2:{ cbn in H. injection H as <-. apply requireEnv_throw_inv in E3 as [F3 ->].
      exists "VITE_ITWIN_POST_SIGNOUT_REDIRECT_URI". split; [repeat constructor|].
      split; [exact F3|]. split; [|reflexivity].
      intros k' Hk'. ConfigSpec.earlier_key Hk'. }
  discriminate.
Qed.

Lemma env_throw_is_first_missing_witness :
  exists k, k ∈ required_keys /\ env sample_both_empty = Throw (missing k)
            /\ truthy (sample_both_empty !! k) = false.
Proof.
  destruct (env_throw_is_first_missing sample_both_empty
              (missing "VITE_ITWIN_CLIENT_ID"))
    as (k & Hk & Hf & _ & He); [reflexivity|].
  exists k. split; [exact Hk|]. split; [|exact Hf].
  rewrite <- He. reflexivity.
Defined.

(** X3.  Construction looks at eight variables only: setting or removing
    any other variable does not change its outcome. *)
Theorem env_ignores_other_variables (m : MetaEnv) (k : string) (v : str) :
  k ∉ Use.env_keys ->
  env (<[k := v]> m) = env m /\ env (delete k m) = env m.
Proof.
  intros Hk.
  assert (Hne : forall k', k' ∈ Use.env_keys -> k <> k').
  { intros k' Hk' ->. contradiction. }
  assert (Hi : forall k', k' ∈ Use.env_keys -> <[k := v]> m !! k' = m !! k').
  { intros k' Hk'. apply lookup_insert_ne. now apply Hne. }
  assert (Hd : forall k', k' ∈ Use.env_keys -> delete k m !! k' = m !! k').
  { intros k' Hk'. apply lookup_delete_ne. now apply Hne. }
  unfold env, requireEnv.
  split; [rewrite !Hi | rewrite !Hd]; try reflexivity;
    unfold Use.env_keys, required_keys; cbn [app];
    rewrite !elem_of_cons; tauto.
Qed.

Lemma env_ignores_other_variables_witness :
  env (<["MODE" := lit "production"]> sample_full) = Normal sample_full_env.
Proof.
  destruct (env_ignores_other_variables sample_full "MODE" (lit "production"))
    as [Hins _].
  - unfold Use.env_keys, required_keys. cbn [app].
    rewrite !elem_of_cons, elem_of_nil. intros H.
    repeat (destruct H as [H|H]; [discriminate H|]). exact H.
  - rewrite Hins. reflexivity.
Defined.

End ConfigMore.

Module ViewerMore.
Import Js Viewer.

Lemma strip_slashes_at_end_more (s : str) n :
  strip_slashes_at_end (s ++ replicate n slash) = strip_slashes_at_end s.
Proof.
  destruct (ViewerSpec.strip_slashes_at_end_stripped s) as [[k Hk] Hlast].
  rewrite Hk at 1. rewrite <- app_assoc, <- replicate_add.
  now apply ViewerSpec.strip_slashes_at_end_app.
Qed.

Lemma click_in_range i h (selected : State) :
  DEFAULT_HOTSPOTS !! i = Some h -> click i selected = Some h.
Proof. intros H. unfold click. now rewrite H. Qed.

Lemma click_out_of_range i (selected : State) :
  DEFAULT_HOTSPOTS !! i = None -> click i selected = selected.
Proof. intros H. unfold click. now rewrite H. Qed.

Lemma clicks_snoc indices i (selected : State) :
  Use.clicks (indices ++ [i]) selected = click i (Use.clicks indices selected).
Proof. unfold Use.clicks. now rewrite foldl_snoc. Qed.

Lemma clicks_keep_selection indices (selected : State) :
  (exists h, h ∈ DEFAULT_HOTSPOTS /\ selected = Some h) ->
  exists h, h ∈ DEFAULT_HOTSPOTS /\ Use.clicks indices selected = Some h.
Proof.
  revert selected. induction indices as [|i indices IH]; intros selected Hsel;
    [exact Hsel|].
  cbn [Use.clicks foldl]. apply IH.
  destruct (DEFAULT_HOTSPOTS !! i) as [h|] eqn:Hi.
  - exists h. split; [now apply list_elem_of_lookup_2 in Hi|].
    now apply click_in_range.
  - now rewrite click_out_of_range.
Qed.

(** X4.  The viewer starts with the first hotspot selected and no click
    can clear the selection: after any sequence of clicks, in range or
    not, the panel shows the card of one of the two hotspots and never
    the 'Select a hotspot.' placeholder. *)
Theorem viewer_selection_never_empty (cfg : Config.AppEnv) (indices : list nat) :
  exists h,
    h ∈ DEFAULT_HOTSPOTS
    /\ Use.clicks indices initial = Some h
    /\ details cfg (Use.clicks indices initial)
       = Card (title h) (description h) (marketingUrl cfg (ctaPath h)) (ctaLabel h)
    /\ details cfg (Use.clicks indices initial)
       <> Placeholder (lit "Select a hotspot.").
Proof.
  destruct (clicks_keep_selection indices initial) as (h & Hh & Hsel).
  { eexists. split; [|reflexivity]. repeat constructor. }
  exists h. rewrite Hsel. repeat split; [exact Hh | discriminate].
Qed.

(** X5.  The last click on a hotspot button decides what is selected,
    whatever was clicked before, and then exactly that button is drawn
    as selected. *)
Theorem viewer_last_click_wins (indices : list nat) (i : nat) (selected : State)
    (h : Hotspot) :
  DEFAULT_HOTSPOTS !! i = Some h ->
  Use.clicks (indices ++ [i]) selected = Some h
  /\ forall j hj, DEFAULT_HOTSPOTS !! j = Some hj ->
       buttons (Use.clicks (indices ++ [i]) selected) !! j
       = Some (title hj, bool_decide (j = i)).
Proof.
  intros Hi. rewrite clicks_snoc, (click_in_range i h _ Hi).
  split; [reflexivity|].
  intros j hj Hj. unfold buttons. rewrite list_lookup_fmap, Hj. cbn.
  do 2 f_equal.
  destruct i as [|[|i]], j as [|[|j]]; cbn in Hi, Hj;
    try discriminate; injection Hi as <-; injection Hj as <-; reflexivity.
Qed.

Lemma viewer_last_click_wins_witness :
  buttons (Use.clicks ([0; 1; 0] ++ [1])%nat initial) !! 0%nat
  = Some (lit "Reception", false)
  /\ buttons (Use.clicks ([0; 1; 0] ++ [1])%nat initial) !! 1%nat
     = Some (lit "Showroom", true).
Proof.
  destruct (viewer_last_click_wins [0; 1; 0]%nat 1 initial _ eq_refl) as [_ Hb].
  split; [exact (Hb 0%nat _ eq_refl) | exact (Hb 1%nat _ eq_refl)].
Defined.

(** X6.  The link does not depend on how many slashes the configured
    base URL ends in, nor on whether the path is written with its
    leading slash: base and path are always joined by a slash. *)
Theorem marketingUrl_normalises (cfg cfg' : Config.AppEnv) (n : nat) (path : str) :
  Config.marketingBaseUrl cfg'
  = Config.marketingBaseUrl cfg ++ replicate n slash ->
  startsWith path (lit "/") = false ->
  marketingUrl cfg' path = marketingUrl cfg path
  /\ marketingUrl cfg (lit "/" ++ path) = marketingUrl cfg path
  /\ marketingUrl cfg path
     = strip_slashes_at_end (Config.marketingBaseUrl cfg) ++ lit "/" ++ path.
Proof.
  intros Hbase Hpath. unfold marketingUrl.
  rewrite Hbase, strip_slashes_at_end_more, Hpath.
  repeat split; reflexivity.
Qed.

Lemma marketingUrl_normalises_witness :
  marketingUrl
    {| Config.itwinClientId := lit "id"; Config.redirectUri := lit "r";
       Config.postSignoutRedirectUri := lit "p"; Config.scope := lit "s";
       Config.authority := lit "a"; Config.demoITwinId := None;
       Config.demoIModelId := None;
       Config.marketingBaseUrl := lit "https://gem.example//" |}
    (lit "services")
  = lit "https://gem.example/services".
Proof.
  destruct (marketingUrl_normalises
              {| Config.itwinClientId := lit "id"; Config.redirectUri := lit "r";
                 Config.postSignoutRedirectUri := lit "p"; Config.scope := lit "s";
                 Config.authority := lit "a"; Config.demoITwinId := None;
                 Config.demoIModelId := None;
                 Config.marketingBaseUrl := lit "https://gem.example" |}
              {| Config.itwinClientId := lit "id"; Config.redirectUri := lit "r";
                 Config.postSignoutRedirectUri := lit "p"; Config.scope := lit "s";
                 Config.authority := lit "a"; Config.demoITwinId := None;
                 Config.demoIModelId := None;
                 Config.marketingBaseUrl := lit "https://gem.example//" |}
              2 (lit "services")) as (Hsame & _ & _);
    [reflexivity | reflexivity |].
  rewrite Hsame. reflexivity.
Defined.

(** X7.  When [VITE_MARKETING_BASE_URL] is not set, the default base "/"
    strips to the empty string, so each hotspot's link is its [ctaPath]
    alone: a link relative to the site the viewer is served from. *)
Theorem viewer_default_links_relative (m : Config.MetaEnv) (cfg : Config.AppEnv)
    (h : Hotspot) :
  Config.env m = Normal cfg ->
  m !! "VITE_MARKETING_BASE_URL" = None ->
  h ∈ DEFAULT_HOTSPOTS ->
  marketingUrl cfg (ctaPath h) = ctaPath h.
Proof.
  unfold Config.env. intros H Hnone Hh.
  destruct (Config.requireEnv m "VITE_ITWIN_CLIENT_ID"); [|discriminate].
  destruct (Config.requireEnv m "VITE_ITWIN_REDIRECT_URI"); [|discriminate].
  destruct (Config.requireEnv m "VITE_ITWIN_POST_SIGNOUT_REDIRECT_URI");
    [|discriminate].
  cbn in H. injection H as <-. unfold marketingUrl. cbn [Config.marketingBaseUrl].
  rewrite Hnone.
  unfold DEFAULT_HOTSPOTS in Hh. rewrite !elem_of_cons, elem_of_nil in Hh.
  destruct Hh as [-> | [-> | []]]; reflexivity.
Qed.

Lemma viewer_default_links_relative_witness :
  details Config.sample_full_env (Use.clicks [0%nat] initial)
  = Card (lit "Reception")
      (lit "Book a demo or request enterprise security services.")
      (lit "/contact-us") (lit "Contact Us").
Proof.
  unfold details, Use.clicks. cbn [foldl click lookup].
  change (click 0 initial) with (DEFAULT_HOTSPOTS !! 0%nat).
  destruct (DEFAULT_HOTSPOTS !! 0%nat) as [h|] eqn:Hh; [|discriminate].
  rewrite (viewer_default_links_relative Config.sample_full
             Config.sample_full_env h);
    [| reflexivity | reflexivity | now apply list_elem_of_lookup_2 in Hh].
  injection Hh as <-. reflexivity.
Defined.

End ViewerMore.

Module ShellSpec.
Import Js Shell.

(** X8.  The Dashboard link is marked active on every page on which any
    link is: each link's target starts with "/app", the Dashboard's
    target.  A path that does not start with "/app" marks no link. *)
Theorem nav_dashboard_active_with_any (pathname : str) (item : NavItemProps) :
  item ∈ NAV_ITEMS ->
  active pathname item = true ->
  exists dashboard,
    NAV_ITEMS !! 0%nat = Some dashboard
    /\ label dashboard = lit "Dashboard"
    /\ active pathname dashboard = true
    /\ startsWith pathname (lit "/app") = true.
Proof.
  intros Hitem Hact. eexists. split; [reflexivity|]. split; [reflexivity|].
  assert (Hpre : startsWith (to item) (lit "/app") = true).
  { unfold NAV_ITEMS in Hitem. rewrite !elem_of_cons, elem_of_nil in Hitem.
    destruct Hitem as [-> | [-> | [-> | [-> | []]]]]; reflexivity. }
  unfold active in *. cbn [to].
  split; apply (JsFacts.startsWith_trans _ _ _ Hact Hpre).
Qed.

Lemma nav_dashboard_active_with_any_witness :
  nav (lit "/app/viewer")
  = [ (lit "Dashboard", lit "rgba(255,255,255,0.08)");
      (lit "Viewer", lit "rgba(255,255,255,0.08)");
      (lit "Activity", lit "transparent");
      (lit "Settings", lit "transparent") ].
Proof.
  destruct (nav_dashboard_active_with_any (lit "/app/viewer")
              {| to := lit "/app/viewer"; label := lit "Viewer" |})
    as (d & Hd & _ & Hact & _).
  - unfold NAV_ITEMS. rewrite !elem_of_cons. right. left. reflexivity.
  - reflexivity.
  - injection Hd as <-. unfold nav, background. cbn [fmap list_fmap NAV_ITEMS label].
    rewrite Hact. reflexivity.
Defined.

(** X9.  Of the Viewer, Activity and Settings links at most one is
    marked active, whatever the path. *)
Theorem nav_page_links_exclusive (pathname : str) (i j : nat)
    (a b : NavItemProps) :
  NAV_ITEMS !! S i = Some a -> NAV_ITEMS !! S j = Some b ->
  active pathname a = true -> active pathname b = true ->
  i = j.
Proof.
  intros Ha Hb. unfold active. rewrite !JsFacts.startsWith_prefix.
  intros [r1 H1] [r2 H2]. rewrite H1 in H2. clear H1.
  destruct i as [|[|[|i]]], j as [|[|[|j]]]; cbn in Ha, Hb; try discriminate;
    injection Ha as <-; injection Hb as <-; try reflexivity;
    exfalso; vm_compute in H2; discriminate H2.
Qed.

Lemma nav_page_links_exclusive_witness : 1%nat = 1%nat.
Proof.
  apply (nav_page_links_exclusive (lit "/app/activity/today") 1 1
           {| to := lit "/app/activity"; label := lit "Activity" |}
           {| to := lit "/app/activity"; label := lit "Activity" |});
    reflexivity.
Defined.

End ShellSpec.

Module ChatMore.
Import Js Chat.

#[local] Arguments lit : simpl never.
#[local] Arguments escape : simpl never.
#[local] Arguments chat_request : simpl never.

Lemma sendMessage_skips (net : Network) (w : World) :
  inputEl w = None \/ chatboxEl w = None \/ sendBtn w = None
  \/ (exists input, inputEl w = Some input /\ trim (value input) = []) ->
  sendMessage net w = (w, Normal tt).
Proof.
  unfold sendMessage. intros [H | [H | [H | (input & H & Ht)]]]; rewrite H.
  - reflexivity.
  - destruct (inputEl w); reflexivity.
  - destruct (inputEl w), (chatboxEl w); reflexivity.
  - rewrite Ht. destruct (chatboxEl w), (sendBtn w); reflexivity.
Qed.

(** Either a send does nothing, or the three elements are there and
    the trimmed text is not empty. *)
Lemma sendMessage_cases (net : Network) (w : World) :
  sendMessage net w = (w, Normal tt)
  \/ exists input box btn,
       inputEl w = Some input /\ chatboxEl w = Some box /\ sendBtn w = Some btn
       /\ trim (value input) <> [].
Proof.
  destruct (inputEl w) as [input|] eqn:Hi;
    [|left; apply sendMessage_skips; auto].
  destruct (chatboxEl w) as [box|] eqn:Hb;
    [|left; apply sendMessage_skips; auto].
  destruct (sendBtn w) as [btn|] eqn:Hs;
    [|left; apply sendMessage_skips; auto].
  destruct (trim (value input)) as [|c t] eqn:Ht.
  - left. apply sendMessage_skips. right. right. right. eauto.
  - right. exists input, box, btn. rewrite Ht. repeat split. discriminate.
Qed.

(** X10.  On a page where each of the three elements is either missing
    or what the script expects (the input field has a string [value]),
    and with a network whose promises settle (the fetch and
    [response.json()] each resolve or reject), a send that has run to
    completion has thrown no exception.  It has only added to the chat
    box, none or two paragraphs after the ones that were there; it has
    sent at most one request; it has neither created nor removed an
    element; and a button that was enabled before is enabled after. *)
Theorem sendMessage_safe (net : Network) (w : World) :
  exists w',
    sendMessage net w = (w', Normal tt)
    /\ (exists requests,
          sent w' = sent w ++ requests /\ (length requests <= 1)%nat)
    /\ match chatboxEl w, chatboxEl w' with
       | Some box, Some box' =>
           exists added, children box' = children box ++ added
                         /\ (length added = 0 \/ length added = 2)%nat
       | None, None => True
       | _, _ => False
       end
    /\ (is_Some (inputEl w') <-> is_Some (inputEl w))
    /\ match sendBtn w, sendBtn w' with
       | Some btn, Some btn' => disabled btn = false -> disabled btn' = false
       | None, None => True
       | _, _ => False
       end.
Proof.
  destruct (sendMessage_cases net w) as [Hskip | (input & box & btn & Hi & Hb & Hs & Ht)].
  - exists w. split; [exact Hskip|].
    split; [exists []; split; [now rewrite app_nil_r | cbn; lia]|].
    split; [destruct (chatboxEl w);
              [exists []; split; [now rewrite app_nil_r | now left] | exact I]|].
    split; [reflexivity|]. destruct (sendBtn w); auto.
  - eexists. split; [apply (ChatSpec.sendMessage_sends net w input box btn); assumption|].
    cbn [sent chatboxEl inputEl sendBtn]. rewrite Hi, Hb, Hs.
    split; [eexists; split; [reflexivity | cbn; lia]|].
    split; [eexists; split; [reflexivity | right; reflexivity]|].
    split; [split; eauto | reflexivity].
Qed.

(** X11.  A send of a text that is not blank issues exactly one request:
    a POST to /chat with a JSON content type whose body is
    [{message: t}], with [t] the input's text with the whitespace at its
    two ends cut off and nothing else changed ([t] is not escaped).  [t]
    is not empty and neither begins nor ends with whitespace.  After the
    send the input field is empty and focused. *)
Theorem sendMessage_request (net : Network) (w : World) input box btn :
  inputEl w = Some input -> chatboxEl w = Some box -> sendBtn w = Some btn ->
  trim (value input) <> [] ->
  exists t pre post,
    t = trim (value input)
    /\ value input = pre ++ t ++ post
    /\ forallb is_white_space pre = true
    /\ forallb is_white_space post = true
    /\ (exists first rest, t = first :: rest /\ is_white_space first = false)
    /\ (exists final, last t = Some final /\ is_white_space final = false)
    /\ sent (sendMessage net w).1
       = sent w
         ++ [ {| url := lit "/chat";
                 method := lit "POST";
                 headers := [(lit "Content-Type", lit "application/json")];
                 body := VObject [(lit "message", VString t)] |} ]
    /\ inputEl (sendMessage net w).1 = Some {| value := []; focused := true |}.
Proof.
  intros Hi Hb Hs Ht.
  destruct (JsFacts.trim_split (value input)) as (pre & post & Hsplit & Hpre & Hpost).
  exists (trim (value input)), pre, post.
  rewrite (ChatSpec.sendMessage_sends net w input box btn Hi Hb Hs Ht).
  cbn [fst sent inputEl].
  split; [reflexivity|]. split; [exact Hsplit|].
  split; [exact Hpre|]. split; [exact Hpost|].
  split; [|split; [|split; reflexivity]].
  - destruct (trim (value input)) as [|c r] eqn:E; [done|].
    exists c, r. split; [reflexivity | now apply (JsFacts.trim_head (value input) c r)].
  - destruct (last (trim (value input))) as [c|] eqn:E.
    + exists c. split; [reflexivity | now apply (JsFacts.trim_last (value input))].
    + apply last_None in E. contradiction.
Qed.

Lemma sendMessage_request_witness :
  sent (sendMessage net_down (sample_world (lit "  a <b> c "))).1
  = [ {| url := lit "/chat";
         method := lit "POST";
         headers := [(lit "Content-Type", lit "application/json")];
         body := VObject [(lit "message", VString (lit "a <b> c"))] |} ].
Proof.
  destruct (sendMessage_request net_down (sample_world (lit "  a <b> c "))
              {| value := lit "  a <b> c "; focused := true |}
              {| children := []; at_bottom := true |}
              {| disabled := false; textContent := lit "Send" |})
    as (t & pre & post & Ht & _ & _ & _ & _ & _ & Hsent & _);
    [reflexivity | reflexivity | reflexivity | discriminate |].
  rewrite Hsent, Ht. reflexivity.
Defined.

Lemma assistant_text_no_reply (net : Network) text response data :
  net (chat_request text) = Normal response ->
  json response = Normal data ->
  (forall reply, get_property data (lit "reply") <> Normal (VString reply)) ->
  assistant_text net text = fallback.
Proof.
  intros H1 H2 H3. unfold assistant_text. rewrite H1, H2.
  destruct (get_property data (lit "reply")) as [[]|]; try reflexivity.
  now destruct (H3 s).
Qed.

(** X12.  When the response parses as JSON but carries no string under
    [reply] (the body is [null], a number, a string or an array, or an
    object whose [reply] is missing or not a string), the assistant's
    paragraph is the fixed apology, as for a failed request: reading
    [reply] off [null] or escaping a value that is not a string throws
    inside the [try]. *)
Theorem sendMessage_reply_not_a_string (net : Network) (w : World)
    input box btn response data :
  inputEl w = Some input -> chatboxEl w = Some box -> sendBtn w = Some btn ->
  trim (value input) <> [] ->
  net (chat_request (trim (value input))) = Normal response ->
  json response = Normal data ->
  (forall reply, get_property data (lit "reply") <> Normal (VString reply)) ->
  (children <$> chatboxEl (sendMessage net w).1)
  = Some (children box
          ++ [ paragraph (lit "You") (trim (value input)) (lit "user");
               paragraph (lit "AI") fallback (lit "ai") ])
  /\ (sendMessage net w).2 = Normal tt
  /\ sendBtn (sendMessage net w).1
     = Some {| disabled := false; textContent := lit "Send" |}.
Proof.
  intros Hi Hb Hs Ht Hnet Hjson Hreply.
  rewrite (ChatSpec.sendMessage_sends net w input box btn Hi Hb Hs Ht).
  rewrite (assistant_text_no_reply net _ response data Hnet Hjson Hreply).
  repeat split.
Qed.

Lemma sendMessage_reply_not_a_string_witness :
  (children <$> chatboxEl
     (sendMessage (fun _ => Normal {| status := 500; json := Normal VNull |})
        (sample_world (lit "hello"))).1)
  = Some [ paragraph (lit "You") (lit "hello") (lit "user");
           paragraph (lit "AI") fallback (lit "ai") ]
  /\ (children <$> chatboxEl
        (sendMessage
           (fun _ => Normal {| status := 200;
                               json := Normal (VObject [(lit "reply", VNumber 0)]) |})
           (sample_world (lit "hello"))).1)
     = Some [ paragraph (lit "You") (lit "hello") (lit "user");
              paragraph (lit "AI") fallback (lit "ai") ].
Proof.
  split.
  - destruct (sendMessage_reply_not_a_string
                (fun _ => Normal {| status := 500; json := Normal VNull |})
                (sample_world (lit "hello"))
                {| value := lit "hello"; focused := true |}
                {| children := []; at_bottom := true |}
                {| disabled := false; textContent := lit "Send" |}
                {| status := 500; json := Normal VNull |} VNull)
      as (Hc & _ & _);
      [reflexivity | reflexivity | reflexivity | discriminate | reflexivity
      | reflexivity | discriminate |].
    exact Hc.
  - destruct (sendMessage_reply_not_a_string
                (fun _ => Normal {| status := 200;
                                    json := Normal (VObject [(lit "reply", VNumber 0)]) |})
                (sample_world (lit "hello"))
                {| value := lit "hello"; focused := true |}
                {| children := []; at_bottom := true |}
                {| disabled := false; textContent := lit "Send" |}
                {| status := 200;
                   json := Normal (VObject [(lit "reply", VNumber 0)]) |}
                (VObject [(lit "reply", VNumber 0)]))
      as (Hc & _ & _);
      [reflexivity | reflexivity | reflexivity | discriminate | reflexivity
      | reflexivity | discriminate |].
    exact Hc.
Defined.

End ChatMore.

Module ChatMarkup.
Import Js Chat.
Import Use (special).

#[local] Arguments lit : simpl never.
#[local] Arguments escape : simpl never.

Lemma escape_unit_plain (c : N) : special c = false -> escape_unit c = [c].
Proof.
  unfold special, escape_unit. intros H.
  apply orb_false_iff in H as [H Hg]. apply orb_false_iff in H as [Ha Hl].
  now rewrite Ha, Hl, Hg.
Qed.

Lemma escape_unit_special (c : N) :
  special c = true -> (length (escape_unit c) >= 4)%nat.
Proof.
  unfold special, escape_unit. intros H.
  destruct (N.eqb c ampersand); [vm_compute; lia|].
  destruct (N.eqb c less_than); [vm_compute; lia|].
  destruct (N.eqb c greater_than); [vm_compute; lia|]. discriminate.
Qed.

Lemma escape_length (s : str) : (length s <= length (escape s))%nat.
Proof.
  rewrite ChatSpec.escape_is_escape_spec. unfold escape_spec.
  induction s as [|c s IH]; [reflexivity|].
  cbn [flat_map length]. rewrite length_app.
  destruct (special c) eqn:Hc.
  - pose proof (escape_unit_special c Hc). lia.
  - rewrite (escape_unit_plain c Hc). cbn [length]. lia.
Qed.

Lemma escape_fixed_iff (s : str) :
  escape s = s <-> existsb special s = false.
Proof.
  rewrite ChatSpec.escape_is_escape_spec. unfold escape_spec.
  induction s as [|c s IH]; [cbn; tauto|].
  cbn [flat_map existsb]. destruct (special c) eqn:Hc; cbn [orb].
  - split; [|discriminate]. intros H. exfalso.
    apply (f_equal (@length N)) in H. rewrite length_app in H. cbn [length] in H.
    pose proof (escape_unit_special c Hc).
    pose proof (escape_length s) as Hlen.
    rewrite ChatSpec.escape_is_escape_spec in Hlen. unfold escape_spec in Hlen. lia.
  - rewrite (escape_unit_plain c Hc). cbn [app]. rewrite <- IH.
    split; [now intros [= ->] | now intros ->].
Qed.

(** X13.  Escaping loses nothing and never shortens: reading the three
    references back gives the input, so two different texts never escape
    to the same markup; and a text is left as it is exactly when it has
    no '&', '<' or '>'. *)
Theorem escape_faithful (s : str) :
  decode_refs 0 (escape s) = s
  /\ (forall t, escape s = escape t -> s = t)
  /\ (length s <= length (escape s))%nat
  /\ (escape s = s <-> existsb special s = false).
Proof.
  split; [now rewrite ChatSpec.escape_is_escape_spec, ChatSpec.decode_refs_escape|].
  split; [|split; [apply escape_length | apply escape_fixed_iff]].
  intros t H. apply (f_equal (decode_refs 0)) in H.
  now rewrite !ChatSpec.escape_is_escape_spec, !ChatSpec.decode_refs_escape in H.
Qed.

Lemma count_occ_absent (l : str) (c : N) :
  c ∉ l -> count_occ N.eq_dec l c = 0%nat.
Proof.
  intros H. apply count_occ_not_In. intros Hin. apply H.
  now apply list_elem_of_In.
Qed.

(** X14.  Whatever the text, the markup of a message paragraph holds
    exactly two '<' and two '>', those of the [<b>] and [</b>] the
    script writes itself: the text can add no tag.  With the tags taken
    out, what is left is the sender's label and the escaped text. *)
Theorem paragraph_has_no_injected_tag (sender text type : str) :
  sender = lit "You" \/ sender = lit "AI" ->
  count_occ N.eq_dec (innerHTML (paragraph sender text type)) less_than = 2%nat
  /\ count_occ N.eq_dec (innerHTML (paragraph sender text type)) greater_than
     = 2%nat
  /\ strip_tags false (innerHTML (paragraph sender text type))
     = sender ++ lit ": " ++ escape text.
Proof.
  unfold paragraph. cbn [innerHTML].
  pose proof (ChatSpec.escape_no_angle text) as [Hlt Hgt].
  intros [-> | ->].
  - rewrite !app_assoc, !count_occ_app, !(count_occ_absent (escape text)) by assumption.
    repeat split; try reflexivity.
    change (strip_tags false (((lit "<b>" ++ lit "You") ++ lit ":</b> ") ++ escape text))
      with (lit "You: " ++ strip_tags false (escape text)).
    now rewrite (ChatSpec.strip_tags_no_lt _ Hlt).
  - rewrite !app_assoc, !count_occ_app, !(count_occ_absent (escape text)) by assumption.
    repeat split; try reflexivity.
    change (strip_tags false (((lit "<b>" ++ lit "AI") ++ lit ":</b> ") ++ escape text))
      with (lit "AI: " ++ strip_tags false (escape text)).
    now rewrite (ChatSpec.strip_tags_no_lt _ Hlt).
Qed.

Lemma paragraph_has_no_injected_tag_witness :
  count_occ N.eq_dec
    (innerHTML (paragraph (lit "You") (lit "<img src=x onerror=alert(1)>") (lit "user")))
    less_than = 2%nat.
Proof.
  destruct (paragraph_has_no_injected_tag (lit "You")
              (lit "<img src=x onerror=alert(1)>") (lit "user")) as (H & _ & _);
    [left; reflexivity | exact H].
Defined.

End ChatMarkup.

Module ChatSession.
Import Js Chat.

#[local] Arguments lit : simpl never.
#[local] Arguments escape : simpl never.
#[local] Arguments chat_request : simpl never.

Lemma type_and_send_step (net : Network) (text : str) (w : World) input box btn :
  inputEl w = Some input -> chatboxEl w = Some box -> sendBtn w = Some btn ->
  exists input' box' btn',
    inputEl (Use.type_and_send net text w) = Some input'
    /\ chatboxEl (Use.type_and_send net text w) = Some box'
    /\ sendBtn (Use.type_and_send net text w) = Some btn'
    /\ children box' = children box ++ Use.exchange net text
    /\ sent (Use.type_and_send net text w) = sent w ++ Use.exchange_requests text.
Proof.
  intros Hi Hb Hs. unfold Use.type_and_send, Use.exchange, Use.exchange_requests.
  set (w1 := Use.type_text text w).
  assert (Hi1 : inputEl w1 = Some (set_value text input))
    by (unfold w1, Use.type_text, with_input; cbn; now rewrite Hi).
  assert (Hb1 : chatboxEl w1 = Some box) by exact Hb.
  assert (Hs1 : sendBtn w1 = Some btn) by exact Hs.
  assert (Hsent : sent w1 = sent w) by reflexivity.
  destruct (trim text) as [|c t] eqn:Ht; cbn [truthy_str].
  - rewrite (ChatMore.sendMessage_skips net w1).
    + cbn [fst]. rewrite Hi1, Hb1, Hs1, !app_nil_r. eauto 10.
    + right. right. right. eexists. split; [exact Hi1 | exact Ht].
  - rewrite (ChatSpec.sendMessage_sends net w1 _ box btn Hi1 Hb1 Hs1);
      cbn [set_value value]; rewrite Ht; [|discriminate].
    cbn [fst inputEl chatboxEl sendBtn sent]. rewrite Hsent.
    eexists _, _, _. repeat split; reflexivity.
Qed.



End ChatSession.

Module N8NSpec.
Import Js N8N.

Lemma strip_final_slash_snoc (r : str) : strip_final_slash (r ++ [Viewer.slash]) = r.
Proof.
  induction r as [|c r IH]; [reflexivity|].
  cbn [app strip_final_slash]. rewrite IH.
  destruct r; reflexivity.
Qed.

Lemma strip_final_slash_keep (s : str) :
  last s <> Some Viewer.slash -> strip_final_slash s = s.
Proof.
  induction s as [|c s IH]; [reflexivity|].
  intros Hlast. cbn [strip_final_slash]. destruct s as [|d s].
  - destruct (N.eqb c Viewer.slash) eqn:Hc; [|reflexivity].
    apply N.eqb_eq in Hc as ->. now destruct Hlast.
  - f_equal. apply IH. exact Hlast.
Qed.

Lemma ends_in_slash_or_not (s : str) :
  (exists r, s = r ++ [Viewer.slash]) \/ last s <> Some Viewer.slash.
Proof.
  destruct (last s) as [c|] eqn:Hl; [|right; discriminate].
  destruct (decide (c = Viewer.slash)) as [->|Hne].
  - left. apply last_Some in Hl as [r ->]. now exists r.
  - right. congruence.
Qed.

(** X16.  The client's constructor removes one slash from the end of the
    base URL and no more: a base URL that ends in a slash loses exactly
    that slash, so one that ended in several still ends in a slash, and
    any other base URL is kept as it is.  (The viewer's link builder,
    in contrast, removes the whole run.) *)
Theorem n8n_base_loses_one_slash (base : str) :
  ((exists r, base = r ++ [Viewer.slash] /\ baseURL (N8NClient base) = r)
   \/ (last base <> Some Viewer.slash /\ baseURL (N8NClient base) = base))
  /\ (forall r, baseURL (N8NClient (r ++ [Viewer.slash; Viewer.slash]))
                = r ++ [Viewer.slash])
  /\ Viewer.strip_slashes_at_end (baseURL (N8NClient base))
     = Viewer.strip_slashes_at_end base.
Proof.
  cbn [N8NClient baseURL]. split; [|split].
  - destruct (ends_in_slash_or_not base) as [[r ->] | Hlast].
    + left. exists r. now rewrite strip_final_slash_snoc.
    + right. split; [exact Hlast | now apply strip_final_slash_keep].
  - intros r. change [Viewer.slash; Viewer.slash] with ([Viewer.slash] ++ [Viewer.slash]).
    now rewrite app_assoc, strip_final_slash_snoc.
  - destruct (ends_in_slash_or_not base) as [[r ->] | Hlast].
    + rewrite strip_final_slash_snoc.
      change [Viewer.slash] with (replicate 1 Viewer.slash).
      now rewrite ViewerMore.strip_slashes_at_end_more.
    + now rewrite strip_final_slash_keep.
Qed.

Lemma last_app_lit_port (a : str) : last (a ++ lit ":5678") = Some 56%N.
Proof.
  change (lit ":5678") with (lit ":567" ++ [56%N]).
  rewrite app_assoc. apply last_snoc.
Qed.

(** X17.  The module's client always talks to port 5678 of the host
    named by [N8N_IP]: its base URL is "http://<host>:5678", which the
    constructor leaves untouched, and the host is the placeholder
    "YOUR_N8N_IP_HERE" when the variable is not set or is empty. *)
Theorem n8n_instance_base (process_env : gmap string str) :
  baseURL (n8n process_env) = lit "http://" ++ N8N_IP process_env ++ lit ":5678"
  /\ N8N_IP process_env <> []
  /\ (forall ip, process_env !! "N8N_IP" = Some ip -> ip <> [] ->
        N8N_IP process_env = ip)
  /\ (truthy (process_env !! "N8N_IP") = false ->
        N8N_IP process_env = lit "YOUR_N8N_IP_HERE").
Proof.
  split; [|split; [|split]].
  - unfold n8n. cbn [N8NClient baseURL]. apply strip_final_slash_keep.
    rewrite app_assoc, last_app_lit_port. discriminate.
  - unfold N8N_IP. destruct (process_env !! "N8N_IP") as [[|c ip]|]; discriminate.
  - intros ip Hip Hne. unfold N8N_IP. rewrite Hip. destruct ip; [done | reflexivity].
  - unfold N8N_IP. destruct (process_env !! "N8N_IP") as [[|c ip]|]; cbn;
      [reflexivity | discriminate | reflexivity].
Qed.

Lemma n8n_instance_base_witness :
  baseURL (n8n {["N8N_IP" := lit "10.0.0.5"]}) = lit "http://10.0.0.5:5678"
  /\ baseURL (n8n {["N8N_IP" := []]}) = lit "http://YOUR_N8N_IP_HERE:5678".
Proof.
  destruct (n8n_instance_base {["N8N_IP" := lit "10.0.0.5"]}) as (Hb & _ & Hip & _).
  destruct (n8n_instance_base {["N8N_IP" := []]}) as (Hb' & _ & _ & Hnone).
  split.
  - rewrite Hb, (Hip (lit "10.0.0.5")); [reflexivity | reflexivity | discriminate].
  - rewrite Hb', Hnone; reflexivity.
Defined.

Lemma triggerWorkflow_run (http : Http) (this : Client) id data_ posts :
  triggerWorkflow http this id data_ posts
  = (posts ++ [ {| client := this; path := lit "/webhook/" ++ id;
                   data := or_default data_ (VObject []) |} ],
     Normal
       match http {| client := this; path := lit "/webhook/" ++ id;
                     data := or_default data_ (VObject []) |} with
       | Normal d => VObject [(lit "success", VBool true); (lit "data", d)]
       | Throw e =>
           VObject [(lit "success", VBool false);
                    (lit "error", VString (message e))]
       end).
Proof.
  unfold triggerWorkflow, try_catch, post, mbind, eff_bind, mret, eff_ret.
  destruct (http _); reflexivity.
Qed.

(** X18.  [triggerWorkflow] and the three helpers built on it never
    throw.  Each sends exactly one POST, through the client it is called
    on, to /webhook/<workflow> (content-generator, rss-processor and
    data-pipeline for the helpers), and resolves to
    [{success: true, data}] with the response's data when the request
    succeeds and to [{success: false, error}] with the error's message
    when it fails.  A [triggerWorkflow] called without data, or with
    [undefined] for it, posts the empty object; any other data is posted
    as it is. *)
Theorem n8n_calls_never_throw (http : Http) (this : Client) (posts : list Post) :
  (forall id data_,
     exists p result,
       triggerWorkflow http this id data_ posts = (posts ++ [p], Normal result)
       /\ client p = this /\ path p = lit "/webhook/" ++ id
       /\ (data_ = None \/ data_ = Some VUndefined -> data p = VObject [])
       /\ (forall d, data_ = Some d -> d <> VUndefined -> data p = d)
       /\ (forall d, http p = Normal d ->
             result = VObject [(lit "success", VBool true); (lit "data", d)])
       /\ (forall e, http p = Throw e ->
             result = VObject [(lit "success", VBool false);
                               (lit "error", VString (message e))]))
  /\ (forall h now arg optional,
        exists p result,
          run_helper h http this now arg optional posts
          = (posts ++ [p], Normal result)
          /\ client p = this
          /\ path p = lit "/webhook/" ++ helper_workflow h
          /\ (forall d, http p = Normal d ->
                result = VObject [(lit "success", VBool true); (lit "data", d)])
          /\ (forall e, http p = Throw e ->
                result = VObject [(lit "success", VBool false);
                                  (lit "error", VString (message e))])).
Proof.
  split.
  - intros id data_. eexists _, _. split; [apply triggerWorkflow_run|].
    cbn [client path data].
    split; [reflexivity|]. split; [reflexivity|].
    split; [now intros [-> | ->]|].
    split; [intros d -> Hd; now destruct d|].
    split; [now intros d -> | now intros e ->].
  - intros h now arg optional.
    destruct h; cbn [run_helper helper_workflow];
      unfold generateContent, processRSS, dataPipeline;
      (eexists _, _; split; [apply triggerWorkflow_run|]);
      cbn [client path data]; repeat split;
      try (now intros d ->); now intros e ->.
Qed.

Lemma n8n_calls_never_throw_witness :
  exists p,
    processRSS (fun _ => Throw (mkError (lit "timeout of 30000ms exceeded")))
      (N8NClient (lit "http://10.0.0.5:5678/")) (VString (lit "https://feed"))
      None []
    = ([p],
       Normal (VObject [(lit "success", VBool false);
                        (lit "error", VString (lit "timeout of 30000ms exceeded"))]))
    /\ path p = lit "/webhook/rss-processor"
    /\ baseURL (client p) = lit "http://10.0.0.5:5678".
Proof.
  destruct (n8n_calls_never_throw
              (fun _ => Throw (mkError (lit "timeout of 30000ms exceeded")))
              (N8NClient (lit "http://10.0.0.5:5678/")) []) as [_ Hhelpers].
  destruct (Hhelpers ProcessRSS [] (VString (lit "https://feed")) None)
    as (p & result & Hrun & Hclient & Hpath & _ & Hfail).
  exists p. cbn [run_helper] in Hrun. rewrite Hrun.
  rewrite (Hfail _ eq_refl), Hclient, Hpath. repeat split.
Defined.

End N8NSpec.

Module AnalyticsSpec.
Import Js Analytics.

(** X19.  Loading the analytics never throws, whatever the import does
    and whatever [inject] is or does: a failed import, a module without
    an [inject] function and an [inject] that throws all end in one
    console warning.  [inject] is called once when the module exports a
    function and not at all otherwise, and the one success message is
    logged exactly when that call returned. *)
Theorem analytics_never_breaks (imported : Completion Module_) (p : Page) :
  exists line,
    initVercelAnalytics imported p
    = ({| console := console p ++ [line];
          inject_calls :=
            inject_calls p + (if exports_function imported then 1 else 0);
          on_dom_ready := on_dom_ready p |},
       Normal tt)
    /\ (line = ConsoleLog
                 [Text (lit "Vercel Web Analytics initialized successfully")]
        <-> succeeds imported = true)
    /\ (succeeds imported = false -> exists args, line = ConsoleWarn args).
Proof.
  destruct imported as [[[| v | [[]|e]]]|e]; eexists;
    (split; [unfold initVercelAnalytics, try_catch, lift, print, call_inject,
               modify, mbind, eff_bind; cbn;
             rewrite ?Nat.add_0_r, ?Nat.add_1_r; reflexivity|]);
    cbn [succeeds]; (split; [split; [discriminate || reflexivity
                                    | discriminate || reflexivity]|]);
    try discriminate; intros _; eexists; reflexivity.
Qed.

(** X20.  Analytics is initialised exactly once, whether the script runs
    while the document is still loading or after: in the first case
    nothing happens until [DOMContentLoaded], and what happens then is
    what would have happened at once; in the second case a later
    [DOMContentLoaded] adds nothing. *)
Theorem analytics_initialised_once (readyState : str)
    (imported : Completion Module_) :
  console (after_dom_ready readyState imported)
  = console (initVercelAnalytics imported fresh_page).1
  /\ inject_calls (after_dom_ready readyState imported)
     = inject_calls (initVercelAnalytics imported fresh_page).1
  /\ (inject_calls (after_dom_ready readyState imported) <= 1)%nat
  /\ (readyState = lit "loading" ->
      console (after_script readyState imported) = []
      /\ inject_calls (after_script readyState imported) = 0%nat)
  /\ (readyState <> lit "loading" ->
      after_dom_ready readyState imported = after_script readyState imported).
Proof.
  unfold after_dom_ready, after_script, script, DOMContentLoaded.
  destruct (analytics_never_breaks imported fresh_page) as (l0 & H0 & _).
  destruct (analytics_never_breaks imported
              {| console := []; inject_calls := 0; on_dom_ready := true |})
    as (l1 & H1 & _).
  assert (Hsame : l0 = l1).
  { unfold initVercelAnalytics, try_catch, lift, print, call_inject, modify,
      mbind, eff_bind in H0, H1.
    destruct imported as [[[| v | [[]|e]]]|e]; cbn in H0, H1;
      injection H0 as H0; injection H1 as H1; congruence. }
  case_bool_decide as Hrs.
  - cbn [modify fst console inject_calls on_dom_ready fresh_page].
    rewrite H1, H0, Hsame. cbn [fst console inject_calls].
    split; [reflexivity|]. split; [reflexivity|].
    split; [destruct (exports_function imported); cbn; lia|].
    split; [intros _; split; reflexivity | intros Hne; contradiction].
  - rewrite H0. cbn [fst on_dom_ready console inject_calls fresh_page].
    split; [reflexivity|]. split; [reflexivity|].
    split; [destruct (exports_function imported); cbn; lia|].
    split; [intros Heq; contradiction | intros _; reflexivity].
Qed.

End AnalyticsSpec.

Module PushScriptSpec.
Import Js PushScript.

(** X21.  Without a token ([GITHUB_TOKEN] not set, or set to the empty
    string) the script runs no command at all: it prints its banner,
    reports 'GITHUB_TOKEN environment variable not set' on the error
    console and exits with code 1. *)
Theorem push_without_token_runs_nothing (process_env : gmap string str)
    (sh : Shell) :
  truthy (process_env !! "GITHUB_TOKEN") = false ->
  exists banner,
    pushToGitHub process_env sh []
    = (banner
       ++ [ ConsoleError [[10060%N] ++ lit " Error:";
                          lit "GITHUB_TOKEN environment variable not set"];
            ProcessExit 1 ],
       Exited)
    /\ commands (pushToGitHub process_env sh []).1 = []
    /\ exits (pushToGitHub process_env sh []).1 = [1%N]
    /\ Forall (fun e => exists line, e = ConsoleLog line) banner.
Proof.
  intros Hf.
  assert (Hrun : pushToGitHub process_env sh []
                 = ([ ConsoleLog ([55357%N; 56960%N] ++ lit " GEM ENTERPRISE - GitHub Push");
                      ConsoleLog (lit "====================================");
                      ConsoleLog [] ]
                    ++ [ ConsoleError [[10060%N] ++ lit " Error:";
                                       lit "GITHUB_TOKEN environment variable not set"];
                         ProcessExit 1 ],
                    Exited)).
  { unfold pushToGitHub.
    destruct (process_env !! "GITHUB_TOKEN") as [[|c t]|]; try discriminate;
      reflexivity. }
  eexists. split; [exact Hrun|]. rewrite Hrun.
  split; [reflexivity|]. split; [reflexivity|].
  repeat constructor; eexists; reflexivity.
Qed.

Lemma push_without_token_runs_nothing_witness :
  commands (pushToGitHub ∅ (fun _ => Normal tt) []).1 = []
  /\ exits (pushToGitHub ∅ (fun _ => Normal tt) []).1 = [1%N].
Proof.
  destruct (push_without_token_runs_nothing ∅ (fun _ => Normal tt))
    as (banner & _ & Hc & He & _); [reflexivity|].
  split; [exact Hc | exact He].
Defined.

(** X22.  With a token the script runs the push exactly once, as its
    last command: a forced push of [replit-agent] to [main] of
    support371/GemAssist-1 with the token in the URL.  It does so whether
    or not the two [git config] commands before it succeed (and it does
    not try the second of them when the first fails).  The process exits
    with code 1 exactly when the push command fails, after reporting
    'Push failed:' with the error's message; when the push succeeds the
    script returns without calling [process.exit]. *)
Theorem push_with_token (process_env : gmap string str) (sh : Shell)
    (token : str) :
  process_env !! "GITHUB_TOKEN" = Some token -> token <> [] ->
  exists configs,
    commands (pushToGitHub process_env sh []).1
    = configs ++ [push_command token]
    /\ ((configs = [config_email; config_name]
         /\ exists u, sh config_email = Normal u)
        \/ (configs = [config_email] /\ exists e, sh config_email = Throw e))
    /\ ExecSync (push_command token) (Some (lit "/home/runner/workspace"))
       ∈ (pushToGitHub process_env sh []).1
    /\ (forall u, sh (push_command token) = Normal u ->
          (pushToGitHub process_env sh []).2 = Returned tt
          /\ exits (pushToGitHub process_env sh []).1 = [])
    /\ (forall e, sh (push_command token) = Throw e ->
          (pushToGitHub process_env sh []).2 = Exited
          /\ exits (pushToGitHub process_env sh []).1 = [1%N]
          /\ last (pushToGitHub process_env sh []).1 = Some (ProcessExit 1)
          /\ ConsoleError [[10060%N] ++ lit " Push failed:"; message e]
             ∈ (pushToGitHub process_env sh []).1).
Proof.
  intros Htok Hne. unfold pushToGitHub. rewrite Htok.
  destruct token as [|c t]; [done|]. cbn [truthy_str].
  unfold try_, execSync, log, emit, exit, throw, mbind, proc_bind, mret, proc_ret.
  destruct (sh config_email) as [u1|e1] eqn:H1.
  - exists [config_email; config_name].
    destruct (sh config_name) as [u2|e2] eqn:H2;
      destruct (sh (push_command (c :: t))) as [u3|e3] eqn:H3;
      cbn -[lit push_command config_email config_name];
      (split; [reflexivity|]); (split; [left; split; [reflexivity | eauto]|]);
      (split; [rewrite !elem_of_cons; tauto|]);
      (split; [intros u Hu | intros e He]);
      try discriminate; try (split; reflexivity);
      (injection He as <-; split; [reflexivity|]; split; [reflexivity|];
       split; [reflexivity | rewrite !elem_of_cons; tauto]).
  - exists [config_email].
    destruct (sh (push_command (c :: t))) as [u3|e3] eqn:H3;
      cbn -[lit push_command config_email config_name];
      (split; [reflexivity|]); (split; [right; split; [reflexivity | eauto]|]);
      (split; [rewrite !elem_of_cons; tauto|]);
      (split; [intros u Hu | intros e He]);
      try discriminate; try (split; reflexivity);
      (injection He as <-; split; [reflexivity|]; split; [reflexivity|];
       split; [reflexivity | rewrite !elem_of_cons; tauto]).
Qed.

Lemma push_with_token_witness :
  commands (pushToGitHub {["GITHUB_TOKEN" := lit "ghp_x"]}
              (fun _ => Throw (mkError (lit "denied"))) []).1
  = [config_email; push_command (lit "ghp_x")]
  /\ exits (pushToGitHub {["GITHUB_TOKEN" := lit "ghp_x"]}
              (fun _ => Throw (mkError (lit "denied"))) []).1
     = [1%N].
Proof.
  destruct (push_with_token {["GITHUB_TOKEN" := lit "ghp_x"]}
              (fun _ => Throw (mkError (lit "denied"))) (lit "ghp_x"))
    as (configs & Hc & _ & _ & _ & Hfail); [reflexivity | discriminate |].
  destruct (Hfail (mkError (lit "denied")) eq_refl) as (_ & He & _).
  split; [reflexivity | exact He].
Defined.

End PushScriptSpec.

Module GitHubTokenSpec.
Import Js GitHubToken.

#[local] Arguments lit : simpl never.

Lemma get_property_optional (v : Value) name :
  nullish_value v = false -> get_property v name = Normal (optional v name).
Proof. destruct v; cbn; try discriminate; reflexivity. Qed.

Lemma cold_cache (unexpired : Value -> bool) (cs : Value) :
  truthy_value cs = false -> cache_is_fresh unexpired cs = Normal false.
Proof. intros H. unfold cache_is_fresh. now rewrite H. Qed.

Lemma xReplitToken_none (process_env : gmap string str) :
  xReplitToken process_env = None
  <-> truthy (process_env !! "REPL_IDENTITY") = false
      /\ truthy (process_env !! "WEB_REPL_RENEWAL") = false.
Proof.
  unfold xReplitToken.
  destruct (process_env !! "REPL_IDENTITY") as [[|c id]|];
    destruct (process_env !! "WEB_REPL_RENEWAL") as [[|d r]|]; cbn;
    split; try discriminate; try tauto; intros [? ?]; discriminate.
Qed.

(** X23.  With no cached connection and neither [REPL_IDENTITY] nor
    [WEB_REPL_RENEWAL] set to a non-empty value, [getAccessToken]
    rejects with 'X_REPLIT_TOKEN not found for repl/depl' before any
    request is sent, and leaves the cache alone. *)
Theorem getAccessToken_needs_identity (process_env : gmap string str)
    (unexpired : Value -> bool) (net : Network) (st : State) :
  truthy_value (connectionSettings st) = false ->
  truthy (process_env !! "REPL_IDENTITY") = false ->
  truthy (process_env !! "WEB_REPL_RENEWAL") = false ->
  getAccessToken process_env unexpired net st
  = (st, Throw (mkError (lit "X_REPLIT_TOKEN not found for repl/depl"))).
Proof.
  intros Hcold H1 H2. unfold getAccessToken.
  rewrite (cold_cache _ _ Hcold).
  assert (Hx : xReplitToken process_env = None) by (apply xReplitToken_none; auto).
  rewrite Hx. reflexivity.
Qed.

Lemma getAccessToken_needs_identity_witness :
  getAccessToken {["WEB_REPL_RENEWAL" := []]} (fun _ => true)
    (answers VNull) initial
  = (initial, Throw (mkError (lit "X_REPLIT_TOKEN not found for repl/depl"))).
Proof.
  apply getAccessToken_needs_identity; reflexivity.
Defined.

Lemma getAccessToken_fetches (process_env : gmap string str)
    (unexpired : Value -> bool) (net : Network) (st : State) token :
  truthy_value (connectionSettings st) = false ->
  xReplitToken process_env = Some token ->
  fetched (getAccessToken process_env unexpired net st).1
  = fetched st ++ [connection_request process_env token].
Proof.
  intros Hcold Hx. unfold getAccessToken.
  rewrite (cold_cache _ _ Hcold), Hx.
  unfold fetch, lift, assign, modify, mbind, eff_bind. cbn.
  destruct (net _) as [[data|e]|e]; cbn; [|reflexivity|reflexivity].
  destruct (get_property data (lit "items")) as [items|e]; cbn; [|reflexivity].
  destruct (accessToken_of _) as [tok|e]; cbn; [|reflexivity].
  destruct (_ || _); reflexivity.
Qed.

(** X24.  With no cached connection and an identity in the environment,
    [getAccessToken] sends exactly one request, whatever the network
    answers: to "https://<REPLIT_CONNECTORS_HOSTNAME>/api/v2/connection?
    include_secrets=true&connector_names=github", with the header
    [X_REPLIT_TOKEN] set to "repl " followed by [REPL_IDENTITY] when
    that is set and not empty, whatever [WEB_REPL_RENEWAL] is, and to
    "depl " followed by [WEB_REPL_RENEWAL] otherwise. *)
Theorem getAccessToken_request (process_env : gmap string str)
    (unexpired : Value -> bool) (net : Network) (st : State) :
  truthy_value (connectionSettings st) = false ->
  (forall id, process_env !! "REPL_IDENTITY" = Some id -> id <> [] ->
     fetched (getAccessToken process_env unexpired net st).1
     = fetched st
       ++ [ {| url := connection_url process_env;
               headers := [ (lit "Accept", lit "application/json");
                            (lit "X_REPLIT_TOKEN", lit "repl " ++ id) ] |} ])
  /\ (forall renewal,
        truthy (process_env !! "REPL_IDENTITY") = false ->
        process_env !! "WEB_REPL_RENEWAL" = Some renewal -> renewal <> [] ->
        fetched (getAccessToken process_env unexpired net st).1
        = fetched st
          ++ [ {| url := connection_url process_env;
                  headers := [ (lit "Accept", lit "application/json");
                               (lit "X_REPLIT_TOKEN", lit "depl " ++ renewal) ] |} ]).
Proof.
  intros Hcold. split.
  - intros id Hid Hne.
    apply (getAccessToken_fetches process_env unexpired net st (lit "repl " ++ id) Hcold).
    unfold xReplitToken. rewrite Hid. destruct id; [done | reflexivity].
  - intros renewal Hno Hr Hne.
    apply (getAccessToken_fetches process_env unexpired net st
             (lit "depl " ++ renewal) Hcold).
    unfold xReplitToken. rewrite Hno, Hr. destruct renewal; [done | reflexivity].
Qed.

Lemma getAccessToken_request_witness :
  fetched (getAccessToken
             (<["REPL_IDENTITY" := lit "abc"]> {["WEB_REPL_RENEWAL" := lit "xyz"]})
             (fun _ => true) (answers VNull) initial).1
  = [ {| url := lit "https://undefined/api/v2/connection?include_secrets=true&connector_names=github";
         headers := [ (lit "Accept", lit "application/json");
                      (lit "X_REPLIT_TOKEN", lit "repl abc") ] |} ].
Proof.
  destruct (getAccessToken_request
              (<["REPL_IDENTITY" := lit "abc"]> {["WEB_REPL_RENEWAL" := lit "xyz"]})
              (fun _ => true) (answers VNull) initial) as [Hrepl _];
    [reflexivity|].
  rewrite (Hrepl (lit "abc")); [reflexivity | reflexivity | discriminate].
Defined.

Lemma accessToken_of_nullish (cs : Value) :
  nullish_value cs = true -> accessToken_of cs = Throw type_error.
Proof. destruct cs; cbn; try discriminate; reflexivity. Qed.

Lemma accessToken_of_value (cs : Value) :
  nullish_value cs = false ->
  accessToken_of cs
  = Normal
      (if truthy_value (optional (optional cs (lit "settings")) (lit "access_token"))
       then optional (optional cs (lit "settings")) (lit "access_token")
       else optional
              (optional (optional (optional cs (lit "settings")) (lit "oauth"))
                 (lit "credentials"))
              (lit "access_token")).
Proof.
  intros H. unfold accessToken_of.
  destruct (truthy_value (optional (optional cs (lit "settings")) (lit "access_token")));
    [reflexivity|].
  now rewrite (get_property_optional cs _ H).
Qed.

(** The run of a call that goes to the network and gets JSON back. *)
Lemma getAccessToken_answered (process_env : gmap string str)
    (unexpired : Value -> bool) (net : Network) (st : State) token data items :
  truthy_value (connectionSettings st) = false ->
  xReplitToken process_env = Some token ->
  net (connection_request process_env token) = Normal (Normal data) ->
  get_property data (lit "items") = Normal items ->
  getAccessToken process_env unexpired net st
  = ({| connectionSettings :=
          if nullish_value items then VUndefined else first_element items;
        fetched := fetched st ++ [connection_request process_env token] |},
     accessToken ← accessToken_of
                     (if nullish_value items then VUndefined
                      else first_element items);
     if negb (truthy_value (if nullish_value items then VUndefined
                            else first_element items))
        || negb (truthy_value accessToken)
     then Throw (mkError (lit "GitHub not connected"))
     else Normal accessToken).
Proof.
  intros Hcold Hx Hnet Hitems. unfold getAccessToken.
  rewrite (cold_cache _ _ Hcold), Hx.
  unfold fetch, lift, assign, modify, mbind, eff_bind, completion_bind. cbn.
  rewrite Hnet. cbn. rewrite Hitems. cbn.
  destruct (accessToken_of _) as [tok|e]; cbn; [|reflexivity].
  destruct (_ || _); reflexivity.
Qed.





(** X27.  While the cached connector says it has not expired (its
    [settings.expires_at] is truthy and lies in the future), a call
    sends no request and reads no environment variable: it returns the
    cached [settings.access_token], whatever that is. *)
Theorem getAccessToken_cached (process_env : gmap string str)
    (unexpired : Value -> bool) (net : Network) (st : State)
    settings expires_at :
  truthy_value (connectionSettings st) = true ->
  get_property (connectionSettings st) (lit "settings") = Normal settings ->
  get_property settings (lit "expires_at") = Normal expires_at ->
  truthy_value expires_at = true ->
  unexpired expires_at = true ->
  getAccessToken process_env unexpired net st
  = (st, Normal (optional settings (lit "access_token"))).
Proof.
  intros Hcs Hs He Ht Hu. unfold getAccessToken, cache_is_fresh.
  rewrite Hcs, Hs. cbn. rewrite He. cbn. rewrite Ht, Hu. cbn.
  unfold lift, mbind, eff_bind, mret, completion_ret. f_equal.
  apply get_property_optional.
  destruct settings; cbn in He; try discriminate; reflexivity.
Qed.

Lemma getAccessToken_cached_witness :
  getAccessToken ∅ (fun _ => true) (answers VNull)
    {| connectionSettings :=
         VObject [(lit "settings",
                   VObject [(lit "expires_at", VString (lit "2099-01-01"));
                            (lit "access_token", VString (lit "gho_2"))])];
       fetched := [] |}
  = ({| connectionSettings :=
          VObject [(lit "settings",
                    VObject [(lit "expires_at", VString (lit "2099-01-01"));
                             (lit "access_token", VString (lit "gho_2"))])];
        fetched := [] |},
     Normal (VString (lit "gho_2"))).
Proof.
  rewrite (getAccessToken_cached ∅ (fun _ => true) (answers VNull) _
             (VObject [(lit "expires_at", VString (lit "2099-01-01"));
                       (lit "access_token", VString (lit "gho_2"))])
             (VString (lit "2099-01-01")));
    reflexivity.
Defined.



End GitHubTokenSpec.
